(** * 3d-streaming: publisher frame pacing, signaling and the receiver's
      stereo transform

    A shallow embedding of [src/publisher.py] and [src/receiver.py].

    Conventions of the embedding.
    - Python [float] values (clock readings, the frame rate, the frame
      duration) are exact rationals [Q]; [int(x)] on a float is truncation
      toward zero, [py_int].  Rounding errors of binary floating point are
      outside the model.
    - A Python exception is a value [exn] carrying the class name and the
      message; a computation that may raise returns [result].
    - An [ndarray] of shape (h, w, 3) is a list of h rows of w pixels; an
      array of shape (h, w) is a list of h rows of w integers.  An array
      without rows is [[]], its width reads as 0.
    - Calls into OpenCV, the clock and the media engine are the external
      world: the capture is a record holding the asset, the clock is a
      stream of readings, the OpenCV kernels and the engine are interfaces. *)

From Stdlib Require Import ZArith QArith Qround Lia.
From stdpp Require Import base option list strings gmap.

#[local] Open Scope Z_scope.

(** ** Python values shared by both programs *)

Record exn := Exn { exn_class : string; exn_msg : string }.

Inductive result (A : Type) : Type :=
| Ok (a : A)
| Raise (e : exn).
Arguments Ok {A} a.
Arguments Raise {A} e.

Definition result_bind {A B} (r : result A) (k : A → result B) : result B :=
  match r with
  | Ok a => k a
  | Raise e => Raise e
  end.

Definition result_map {A B} (f : A → B) (r : result A) : result B :=
  result_bind r (λ a, Ok (f a)).

#[export] Instance result_ret : MRet result := @Ok.
#[export] Instance result_mbind : MBind result := λ A B k r, result_bind r k.
#[export] Instance result_fmap : FMap result := λ A B f r, result_map f r.

Definition is_ok {A} (r : result A) : bool :=
  match r with Ok _ => true | Raise _ => false end.

Definition ValueError (msg : string) : exn := Exn "ValueError" msg.
Definition ZeroDivisionError (msg : string) : exn := Exn "ZeroDivisionError" msg.
Definition cv2_error (msg : string) : exn := Exn "cv2.error" msg.

(** [int(x)] for a float [x]: truncation toward zero. *)
Definition py_int (q : Q) : Z := Z.quot (Qnum q) (Zpos (Qden q)).

(** [a / b] on floats: raises on a zero divisor. *)
Definition py_truediv (a b : Q) : result Q :=
  if Qeq_bool b 0 then Raise (ZeroDivisionError "float division by zero")
  else Ok (a / b)%Q.

(** [a / b] on two [int]s, a float.  For operands the size of image
    dimensions the correctly rounded quotient has the integer part of the
    exact one, so the exact quotient stands for it. *)
Definition py_int_truediv (a b : Z) : result Q :=
  if b =? 0 then Raise (ZeroDivisionError "division by zero")
  else Ok (inject_Z a / inject_Z b)%Q.

(** Pixels are three 8-bit channels; index 0, 1, 2 along the last axis. *)
Record pixel := Px { ch0 : Z; ch1 : Z; ch2 : Z }.

Abbreviation image := (list (list pixel)).

Definition black : pixel := Px 0 0 0.

Definition img_height {A} (a : list (list A)) : Z := Z.of_nat (length a).
Definition img_width {A} (a : list (list A)) : Z :=
  match a with
  | [] => 0
  | r :: _ => Z.of_nat (length r)
  end.

(** A per-element operation on a two-axis array. *)
Definition img_map {A B} (f : A → B) (a : list (list A)) : list (list B) :=
  (λ row : list A, f <$> row) <$> a.

(** [Mat::empty()]: no rows or no columns. *)
Definition img_empty {A} (a : list (list A)) : bool :=
  (img_height a =? 0) || (img_width a =? 0).

(** Every row has [w] entries. *)
Definition rect {A} (w : nat) (a : list (list A)) : Prop :=
  Forall (λ r, length r = w) a.

(** ** publisher.py: SideBySideVideoTrack *)
Module Publisher.

(** [cv2.VideoCapture]: the asset it decodes and its read position.
    [cap_frames i] is the frame the decoder yields at position [i], [None]
    where decoding fails; the properties are what [cap.get] reports. *)
Record VideoCapture := {
  cap_opened : bool;
  cap_fps : Q;
  cap_width : Q;
  cap_height : Q;
  cap_frame_count : Q;
  cap_frames : Z → option image;
  cap_pos : Z
}.

Definition cap_with_pos (c : VideoCapture) (p : Z) : VideoCapture :=
  {| cap_opened := cap_opened c; cap_fps := cap_fps c; cap_width := cap_width c;
     cap_height := cap_height c; cap_frame_count := cap_frame_count c;
     cap_frames := cap_frames c; cap_pos := p |}.

Record SideBySideVideoTrack := {
  video_path : string;
  cap : VideoCapture;
  fps : Q;
  width : Z;
  height : Z;
  frame_count : Z;
  frame_duration : Q;
  start_time : option Q;
  frame_index : Z;
  kind : string
}.

(** [av.VideoFrame] as the track hands it out. *)
Record VideoFrame := {
  vf_data : image;
  vf_pts : Z;
  vf_time_base : Z * Z
}.

(** [SideBySideVideoTrack.__init__]; [c] is [cv2.VideoCapture(video_path)]. *)
Definition init (path : string) (c : VideoCapture) : result SideBySideVideoTrack :=
  if negb (cap_opened c) then
    Raise (ValueError ("Could not open video file: " +:+ path))
  else
    let fps := cap_fps c in
    let width := py_int (cap_width c) in
    let height := py_int (cap_height c) in
    let frame_count := py_int (cap_frame_count c) in
    frame_duration ← py_truediv 1 fps;
    Ok {| video_path := path; cap := c; fps := fps; width := width;
          height := height; frame_count := frame_count;
          frame_duration := frame_duration;
          start_time := None; frame_index := 0; kind := "video" |}.

(** *** The world [recv] runs in *)

(** External calls made by [recv], in program order. *)
Inductive event :=
| ENow (t : Q)                       (* time.time() returned t *)
| ECapSet (n : Z)                    (* cap.set(CAP_PROP_POS_FRAMES, n) *)
| ECapRead (pos : Z) (ok : bool).    (* cap.read() at position pos *)

Record state := {
  self : SideBySideVideoTrack;
  ticks : nat                        (* clock readings consumed so far *)
}.

(** State, exceptions and the log of external calls. *)
Definition M (A : Type) : Type := state → result A * state * list event.

Definition ret {A} (a : A) : M A := λ s, (Ok a, s, []).
Definition raise {A} (e : exn) : M A := λ s, (Raise e, s, []).
Definition bind {A B} (m : M A) (k : A → M B) : M B :=
  λ s, match m s with
       | (Ok a, s1, l1) =>
           match k a s1 with (r, s2, l2) => (r, s2, l1 ++ l2) end
       | (Raise e, s1, l1) => (Raise e, s1, l1)
       end.

#[export] Instance M_ret : MRet M := @ret.
#[export] Instance M_bind : MBind M := λ A B k m, bind m k.

Definition get_self : M SideBySideVideoTrack := λ s, (Ok (self s), s, []).

Definition set_start_time (t : option Q) : M unit := λ s,
  let t0 := self s in
  (Ok (), {| self := {| video_path := video_path t0; cap := cap t0; fps := fps t0;
                        width := width t0; height := height t0;
                        frame_count := frame_count t0;
                        frame_duration := frame_duration t0;
                        start_time := t; frame_index := frame_index t0;
                        kind := kind t0 |};
             ticks := ticks s |}, []).

Definition set_cap (c : VideoCapture) : M unit := λ s,
  let t0 := self s in
  (Ok (), {| self := {| video_path := video_path t0; cap := c; fps := fps t0;
                        width := width t0; height := height t0;
                        frame_count := frame_count t0;
                        frame_duration := frame_duration t0;
                        start_time := start_time t0; frame_index := frame_index t0;
                        kind := kind t0 |};
             ticks := ticks s |}, []).

Section Recv.

(** Successive readings of [time.time()]. *)
Variable clock : nat → Q.

Definition time_time : M Q := λ s,
  let t := clock (ticks s) in
  (Ok t, {| self := self s; ticks := S (ticks s) |}, [ENow t]).

(** [self.cap.set(cv2.CAP_PROP_POS_FRAMES, n)] *)
Definition cap_set_pos (n : Z) : M unit := λ s,
  match set_cap (cap_with_pos (cap (self s)) n) s with
  | (r, s', _) => (r, s', [ECapSet n])
  end.

(** [self.cap.read()]: the frame at the read position, which advances past a
    frame that was decoded. *)
Definition cap_read : M (option image) := λ s,
  let c := cap (self s) in
  match cap_frames c (cap_pos c) with
  | Some f =>
      match set_cap (cap_with_pos c (cap_pos c + 1)) s with
      | (_, s', _) => (Ok (Some f), s', [ECapRead (cap_pos c) true])
      end
  | None => (Ok None, s, [ECapRead (cap_pos c) false])
  end.

Definition bgr2rgb (p : pixel) : pixel := Px (ch2 p) (ch1 p) (ch0 p).

(** [cv2.cvtColor(frame, cv2.COLOR_BGR2RGB)]; [None] and an empty array are
    rejected by OpenCV. *)
Definition cvtColor_BGR2RGB (frame : option image) : M image :=
  match frame with
  | None => raise (cv2_error "!_src.empty() in function 'cvtColor'")
  | Some f =>
      if img_empty f then raise (cv2_error "!_src.empty() in function 'cvtColor'")
      else ret (img_map bgr2rgb f)
  end.

(** Lines 44-55 of [recv]: the frame index the clock selects. *)
Definition recv_pace : M Z :=
  s0 ← get_self;
  (match start_time s0 with
   | None => t ← time_time; set_start_time (Some t)
   | Some _ => ret ()
   end) ;;
  now ← time_time;
  s1 ← get_self;
  let current_time := (now - default 0%Q (start_time s1))%Q in
  let target_frame := py_int (current_time * fps s1) in
  if frame_count s1 <=? target_frame then
    cap_set_pos 0 ;;
    t ← time_time;
    set_start_time (Some t) ;;
    ret 0
  else ret target_frame.

(** Lines 57-75 of [recv]: seek, decode, convert, stamp. *)
Definition recv_emit (target_frame : Z) : M VideoFrame :=
  cap_set_pos target_frame ;;
  frame ← cap_read;
  frame ← (match frame with
           | None => cap_set_pos 0 ;; cap_read
           | Some f => ret (Some f)
           end);
  frame_rgb ← cvtColor_BGR2RGB frame;
  s ← get_self;
  ret ({| vf_data := frame_rgb;
          vf_pts := py_int (inject_Z target_frame * frame_duration s * 90000);
          vf_time_base := (1, 90000) |}).

Definition recv : M VideoFrame :=
  target_frame ← recv_pace;
  recv_emit target_frame.

(** One call of [recv] as the transport sees it. *)
Record call := {
  call_pre : state;
  call_result : result VideoFrame;
  call_post : state;
  call_events : list event
}.

(** [n] successive calls of [recv]; an exception ends the call, not the track. *)
Fixpoint run (n : nat) (s : state) : list call :=
  match n with
  | O => []
  | S n' =>
      match recv s with
      | (r, s', l) =>
          {| call_pre := s; call_result := r; call_post := s'; call_events := l |}
            :: run n' s'
      end
  end.

(** Wall-clock time elapsed at the call that starts in [s], as line 48
    computes it. *)
Definition elapsed (s : state) : Q :=
  match start_time (self s) with
  | None => (clock (S (ticks s)) - clock (ticks s))%Q
  | Some t0 => (clock (ticks s) - t0)%Q
  end.

(** The frame index [recv_pace] settles on when started in [s]. *)
Definition target_index (s : state) : Z :=
  match recv_pace s with
  | (Ok t, _, _) => t
  | (Raise _, _, _) => 0
  end.

End Recv.

(** The loop branch shows in the log as a seek to 0 followed by a fresh clock
    reading. *)
Fixpoint loop_reset (l : list event) : bool :=
  match l with
  | ECapSet 0 :: ((ENow _ :: _) as l') => true
  | _ :: l' => loop_reset l'
  | [] => false
  end.

Definition seeks (l : list event) : list Z :=
  omap (λ e, match e with ECapSet n => Some n | _ => None end) l.

Definition reads (l : list event) : list Z :=
  omap (λ e, match e with ECapRead p _ => Some p | _ => None end) l.

End Publisher.

(** ** receiver.py: VideoReceiver.process_3d_frame *)
Module Receiver.

(** *** Python and NumPy indexing *)

(** A slice bound [i] on a sequence of [len] items: negative bounds count
    from the end, and the result is clipped to [0, len]. *)
Definition py_bound (len : nat) (i : Z) : nat :=
  Z.to_nat (if i <? 0 then Z.max 0 (i + Z.of_nat len) else Z.min i (Z.of_nat len)).

(** [start:stop], either bound optional. *)
Record pyslice := Slice { sl_start : option Z; sl_stop : option Z }.

Definition slice_range (len : nat) (sl : pyslice) : nat * nat :=
  let lo := from_option (py_bound len) 0%nat (sl_start sl) in
  let hi := from_option (py_bound len) len (sl_stop sl) in
  (lo, Nat.max lo hi).

Definition py_slice {A} (sl : pyslice) (l : list A) : list A :=
  let '(lo, hi) := slice_range (length l) sl in
  take (hi - lo) (drop lo l).

(** [a[:, sl]] *)
Definition col_slice {A} (sl : pyslice) (a : list (list A)) : list (list A) :=
  py_slice sl <$> a.

(** Broadcasting along one axis: a single item is repeated. *)
Definition stretch {A} (n : nat) (l : list A) : list A :=
  match l with
  | [x] => replicate n x
  | _ => l
  end.

Definition broadcastable (src tgt : nat) : bool :=
  bool_decide (src = tgt) || bool_decide (src = 1%nat).

(** [dst[rs, cs] = src] on arrays of at least two axes; the shapes must
    agree up to broadcasting. *)
Definition np_setitem {A} (dst : list (list A)) (rs cs : pyslice)
    (src : list (list A)) : result (list (list A)) :=
  let '(r0, r1) := slice_range (length dst) rs in
  let '(c0, c1) := slice_range (Z.to_nat (img_width dst)) cs in
  let th := (r1 - r0)%nat in
  let tw := (c1 - c0)%nat in
  if broadcastable (length src) th && broadcastable (Z.to_nat (img_width src)) tw then
    Ok (take r0 dst
        ++ zip_with (λ d s, take c0 d ++ stretch tw s ++ drop c1 d)
             (take th (drop r0 dst)) (stretch th src)
        ++ drop r1 dst)
  else Raise (ValueError "could not broadcast input array").

(** [np.zeros_like(a)] and [np.zeros((h, w, ...))] *)
Definition zeros_like {A B} (z : B) (a : list (list A)) : list (list B) :=
  img_map (λ _, z) a.
Definition zeros {B} (z : B) (h w : Z) : list (list B) :=
  replicate (Z.to_nat h) (replicate (Z.to_nat w) z).

Definition set_ch (c : nat) (p : pixel) (v : Z) : pixel :=
  match c with
  | 0%nat => Px v (ch1 p) (ch2 p)
  | 1%nat => Px (ch0 p) v (ch2 p)
  | 2%nat => Px (ch0 p) (ch1 p) v
  | _ => p
  end.

(** [a[:, :, c] = g] for [g] of the shape of [a]'s first two axes. *)
Definition set_channel (c : nat) (a : image) (g : list (list Z)) : image :=
  zip_with (zip_with (set_ch c)) a g.

(** *** OpenCV *)

(** The two kernels of OpenCV the transform calls.  [resize_kernel src w h]
    is the interpolated image of [w] columns and [h] rows; [rgb2gray] is the
    luminance of one pixel. *)
Class Cv2 := {
  resize_kernel : image → nat → nat → image;
  rgb2gray : pixel → Z;
  resize_kernel_rows : ∀ src w h, length (resize_kernel src w h) = h;
  resize_kernel_cols : ∀ src w h, rect w (resize_kernel src w h)
}.

Section Transform.
Context {cv : Cv2}.

(** [cv2.resize(src, (w, h))]: OpenCV rejects an empty source and a
    destination size that is not positive. *)
Definition cv2_resize (src : image) (dsize : Z * Z) : result image :=
  let '(w, h) := dsize in
  if img_empty src then Raise (cv2_error "!ssize.empty() in function 'resize'")
  else if (w <=? 0) || (h <=? 0) then
    Raise (cv2_error "!dsize.empty() in function 'resize'")
  else Ok (resize_kernel src (Z.to_nat w) (Z.to_nat h)).

(** [cv2.cvtColor(frame, cv2.COLOR_RGB2GRAY)] *)
Definition cvtColor_RGB2GRAY (frame : image) : result (list (list Z)) :=
  if img_empty frame then Raise (cv2_error "!_src.empty() in function 'cvtColor'")
  else Ok (img_map rgb2gray frame).

(** [VideoReceiver.process_3d_frame], with the two widget reads
    [self.mode_var.get()] and [self.offset_var.get()] as arguments. *)
Definition process_3d_frame (mode : string) (offset : Z) (frame : image)
    : result image :=
  let height := img_height frame in
  let width := img_width frame in
  if String.eqb mode "side_by_side_cross_eye" then
    let side_by_side := zeros_like black frame in
    (* left half: right eye view, trimmed from the left *)
    let left_half := col_slice (Slice (Some offset) None) frame in
    new_height ← py_int <$> py_int_truediv ((width / 2) * height) (width - offset);
    left_half_resized ← cv2_resize left_half (width / 2, new_height);
    let y_offset := (height - new_height) / 2 in
    side_by_side ← np_setitem side_by_side
                      (Slice (Some y_offset) (Some (y_offset + new_height)))
                      (Slice None (Some (width / 2))) left_half_resized;
    (* right half: left eye view, trimmed from the right *)
    let right_half := col_slice (Slice None (Some (- offset))) frame in
    new_height ← py_int <$> py_int_truediv ((width / 2) * height) (width - offset);
    right_half_resized ← cv2_resize right_half (width / 2, new_height);
    let y_offset := (height - new_height) / 2 in
    side_by_side ← np_setitem side_by_side
                      (Slice (Some y_offset) (Some (y_offset + new_height)))
                      (Slice (Some (width / 2)) None) right_half_resized;
    Ok side_by_side
  else if String.eqb mode "side_by_side_parallel" then
    let side_by_side := zeros_like black frame in
    (* left half: left eye view, trimmed from the right *)
    let left_half := col_slice (Slice None (Some (- offset))) frame in
    new_height ← py_int <$> py_int_truediv ((width / 2) * height) (width - offset);
    left_half_resized ← cv2_resize left_half (width / 2, new_height);
    let y_offset := (height - new_height) / 2 in
    side_by_side ← np_setitem side_by_side
                      (Slice (Some y_offset) (Some (y_offset + new_height)))
                      (Slice None (Some (width / 2))) left_half_resized;
    (* right half: right eye view, trimmed from the left *)
    let right_half := col_slice (Slice (Some offset) None) frame in
    new_height ← py_int <$> py_int_truediv ((width / 2) * height) (width - offset);
    right_half_resized ← cv2_resize right_half (width / 2, new_height);
    let y_offset := (height - new_height) / 2 in
    side_by_side ← np_setitem side_by_side
                      (Slice (Some y_offset) (Some (y_offset + new_height)))
                      (Slice (Some (width / 2)) None) right_half_resized;
    Ok side_by_side
  else if String.eqb mode "anaglyph_red_cyan" then
    let anaglyph := zeros black height width in
    gray_frame ← cvtColor_RGB2GRAY frame;
    (* red channel (left eye): original position *)
    let anaglyph := set_channel 0 anaglyph gray_frame in
    (* green and blue channels (right eye): shifted *)
    let right_shifted := zeros_like 0 gray_frame in
    right_shifted ← np_setitem right_shifted (Slice None None) (Slice (Some offset) None)
                      (if 0 <? offset
                       then col_slice (Slice None (Some (- offset))) gray_frame
                       else gray_frame);
    let anaglyph := set_channel 1 anaglyph right_shifted in
    let anaglyph := set_channel 2 anaglyph right_shifted in
    Ok anaglyph
  else if String.eqb mode "anaglyph_green_magenta" then
    let anaglyph := zeros black height width in
    gray_frame ← cvtColor_RGB2GRAY frame;
    (* green channel (left eye): original position *)
    let anaglyph := set_channel 1 anaglyph gray_frame in
    (* red and blue channels (right eye): shifted *)
    let right_shifted := zeros_like 0 gray_frame in
    right_shifted ← np_setitem right_shifted (Slice None None) (Slice (Some offset) None)
                      (if 0 <? offset
                       then col_slice (Slice None (Some (- offset))) gray_frame
                       else gray_frame);
    let anaglyph := set_channel 0 anaglyph right_shifted in
    let anaglyph := set_channel 2 anaglyph right_shifted in
    Ok anaglyph
  else Ok frame.

(** The code shared by the two side-by-side branches, from the crops on:
    [left_half] and [right_half] are the crops the branch takes. *)
Definition side_by_side (frame : image) (offset : Z) (left_half right_half : image)
    : result image :=
  let height := img_height frame in
  let width := img_width frame in
  let side_by_side := zeros_like black frame in
  new_height ← py_int <$> py_int_truediv ((width / 2) * height) (width - offset);
  left_half_resized ← cv2_resize left_half (width / 2, new_height);
  let y_offset := (height - new_height) / 2 in
  side_by_side ← np_setitem side_by_side
                    (Slice (Some y_offset) (Some (y_offset + new_height)))
                    (Slice None (Some (width / 2))) left_half_resized;
  new_height ← py_int <$> py_int_truediv ((width / 2) * height) (width - offset);
  right_half_resized ← cv2_resize right_half (width / 2, new_height);
  let y_offset := (height - new_height) / 2 in
  side_by_side ← np_setitem side_by_side
                    (Slice (Some y_offset) (Some (y_offset + new_height)))
                    (Slice (Some (width / 2)) None) right_half_resized;
  Ok side_by_side.

End Transform.

(** *** Shapes the proofs speak of *)

(** A frame whose rows all have the width the frame reports. *)
Definition rectangular {A} (a : list (list A)) : Prop :=
  rect (Z.to_nat (img_width a)) a.

(** [new_height] of lines 249 and 281, and [y_offset] of lines 253 and 285. *)
Definition new_height (width height offset : Z) : Z :=
  Z.quot ((width / 2) * height) (width - offset).
Definition y_offset (height new_height : Z) : Z := (height - new_height) / 2.

(** [top] black rows, the rows of [a] and [b] joined, [bottom] black rows. *)
Definition layout (w top bottom : nat) (a b : image) : image :=
  replicate top (replicate w black) ++ zip_with app a b
    ++ replicate bottom (replicate w black).

(** A row moved right by [o] columns, zeros entering from the left. *)
Definition shift_right (o : nat) (row : list Z) : list Z :=
  take (length row) (replicate o 0 ++ row).

(** Red and green exchanged. *)
Definition swap_rg (p : pixel) : pixel := Px (ch1 p) (ch0 p) (ch2 p).

(** The number of leading, and of trailing, rows that are black throughout. *)
Definition black_row (r : list pixel) : bool :=
  forallb (λ p, (ch0 p =? 0) && (ch1 p =? 0) && (ch2 p =? 0)) r.
Fixpoint leading_black (a : image) : nat :=
  match a with
  | r :: a' => if black_row r then S (leading_black a') else 0%nat
  | [] => 0%nat
  end.
Definition top_margin (a : image) : nat := leading_black a.
Definition bottom_margin (a : image) : nat := leading_black (reverse a).

(** *** A concrete OpenCV for running the transform *)

(** Nearest-neighbour sampling ([cv2.INTER_NEAREST]): destination index [i]
    of [n] reads source index [i * len / n]. *)
Definition nearest {A} (d : A) (n : nat) (l : list A) : list A :=
  (λ i, nth (Z.to_nat (Z.of_nat i * Z.of_nat (length l) / Z.of_nat n)) l d)
    <$> seq 0 n.

Definition nearest_resize (src : image) (w h : nat) : image :=
  nearest black w <$> nearest [] h src.

(** OpenCV's 8-bit luminance: fixed-point weights with 14 fractional bits. *)
Definition luminance (p : pixel) : Z :=
  Z.shiftr (4899 * ch0 p + 9617 * ch1 p + 1868 * ch2 p + 8192) 14.

End Receiver.

(** ** publisher.py: WebRTCPublisher and its /offer handler *)
Module Signaling.
Import Publisher.

(** [aiortc.RTCSessionDescription] *)
Record RTCSessionDescription := { sd_sdp : string; sd_type : string }.

(** The media engine (aiortc) as the publisher uses it.  A peer connection
    is a mutable object; a method that changes it returns its next state. *)
Class Engine (PC : Type) := {
  (* RTCSessionDescription(sdp=..., type=...), which validates its fields *)
  description : string → string → result RTCSessionDescription;
  (* RTCPeerConnection() *)
  pc_new : PC;
  pc_close : PC → result unit;
  pc_addTransceiver : PC → SideBySideVideoTrack → PC;
  pc_setRemoteDescription : PC → RTCSessionDescription → result PC;
  pc_createAnswer : PC → result RTCSessionDescription;
  pc_setLocalDescription : PC → RTCSessionDescription → result PC;
  pc_localDescription : PC → option RTCSessionDescription
}.

(** The body of an [aiohttp] response: [text=str(e)], or
    [text=json.dumps(obj)] kept as the object it serialises. *)
Inductive payload :=
| Text (s : string)
| JsonDumps (obj : gmap string string).

Record Response := {
  status : Z;
  content_type : string;
  body : payload
}.

Section Handler.
Context {PC : Type} `{Engine PC}.

(** [cv2.VideoCapture(path)]: what the file system holds at [path]. *)
Variable open_capture : string → VideoCapture.

Record WebRTCPublisher := {
  wp_video_path : string;
  pc : option PC;
  video_track : option SideBySideVideoTrack
}.

Definition with_session (p : WebRTCPublisher) (c : option PC)
    (t : option SideBySideVideoTrack) : WebRTCPublisher :=
  {| wp_video_path := wp_video_path p; pc := c; video_track := t |}.

(** [_reset_connection]: an error while closing is logged and dropped. *)
Definition reset_connection (p : WebRTCPublisher) : WebRTCPublisher :=
  let p :=
    match pc p with
    | Some c =>
        match pc_close c with
        | Ok _ | Raise _ => with_session p None (video_track p)
        end
    | None => p
    end in
  match video_track p with
  | Some _ => with_session p (pc p) None
  | None => p
  end.

(** [_create_new_connection]: the new connection, and the publisher as the
    call leaves it, also when the track cannot be built. *)
Definition create_new_connection (p : WebRTCPublisher)
    : result PC * WebRTCPublisher :=
  let p := reset_connection p in
  let p := with_session p (Some pc_new) (video_track p) in
  match init (wp_video_path p) (open_capture (wp_video_path p)) with
  | Raise e => (Raise e, p)
  | Ok track =>
      let c := pc_addTransceiver pc_new track in
      (Ok c, with_session p (Some c) (Some track))
  end.

(** The [try] block of [offer_handler].  [request] is the parsed body of the
    POST: [None] when [request.json()] raises, else the JSON object, its
    values strings. *)
Definition offer_try (request : option (gmap string string)) (p : WebRTCPublisher)
    : result Response * WebRTCPublisher :=
  match request with
  | None => (Raise (Exn "JSONDecodeError" "Expecting value"), p)
  | Some params =>
      match params !! "sdp", params !! "type" with
      | Some sdp_data, Some sdp_type =>
          match description sdp_data sdp_type with
          | Raise e => (Raise e, p)
          | Ok offer =>
              match create_new_connection p with
              | (Raise e, p) => (Raise e, p)
              | (Ok c, p) =>
                  let run :=
                    c ← pc_setRemoteDescription c offer;
                    answer ← pc_createAnswer c;
                    c ← pc_setLocalDescription c answer;
                    Ok c in
                  match run with
                  | Raise e => (Raise e, p)
                  | Ok c =>
                      let p := with_session p (Some c) (video_track p) in
                      match pc_localDescription c with
                      | None =>
                          (Raise (Exn "AttributeError"
                                    "'NoneType' object has no attribute 'sdp'"), p)
                      | Some ld =>
                          (Ok {| status := 200;
                                 content_type := "application/json";
                                 body := JsonDumps
                                   (<["sdp" := sd_sdp ld]>
                                      (<["type" := sd_type ld]> ∅)) |}, p)
                      end
                  end
              end
          end
      | _, _ => (Raise (ValueError "Missing required SDP parameters"), p)
      end
  end.

(** [offer_handler]: every exception becomes a 500 whose text is [str(e)].
    The connection lock makes the handler run one request at a time. *)
Definition offer_handler (request : option (gmap string string))
    (p : WebRTCPublisher) : Response * WebRTCPublisher :=
  match offer_try request p with
  | (Ok r, p) => (r, p)
  | (Raise e, p) =>
      ({| status := 500; content_type := "text/plain"; body := Text (exn_msg e) |}, p)
  end.

End Handler.

End Signaling.

(** ** The specification's timestamp and sample assets *)
Module Samples.
Import Publisher.



(** A track as the transport first sees it: built by [init], no clock
    reading taken yet. *)
Definition fresh (path : string) (c : VideoCapture) : result state :=
  t ← init path c;
  Ok {| self := t; ticks := 0 |}.

Definition sample_frame : image := [[Px 1 2 3; Px 4 5 6]; [Px 7 8 9; Px 10 11 12]].

(** 100 frames announced at 7 fps, of which only the first 90 decode. *)
Definition sample_cap : VideoCapture :=
  {| cap_opened := true; cap_fps := 7; cap_width := 2; cap_height := 2;
     cap_frame_count := 100;
     cap_frames := λ i, if (0 <=? i) && (i <? 90) then Some sample_frame else None;
     cap_pos := 0 |}.

(** The same asset with an unreadable frame rate. *)
Definition zero_fps_cap : VideoCapture :=
  {| cap_opened := true; cap_fps := 0; cap_width := 2; cap_height := 2;
     cap_frame_count := 100;
     cap_frames := cap_frames sample_cap;
     cap_pos := 0 |}.

(** Clock readings 0, 0.6, 13, 14, 15, ...: the second call lands past the
    last decodable frame. *)
Definition sample_clock (n : nat) : Q :=
  match n with
  | 0%nat => 0
  | 1%nat => 6 # 10
  | 2%nat => 13
  | 3%nat => 14
  | _ => 15
  end.

(** Clock readings 0, 15, 15.5, 16, ...: the first call lands past the end
    of the asset. *)
Definition late_clock (n : nat) : Q :=
  match n with
  | 0%nat => 0
  | 1%nat => 15
  | 2%nat => 31 # 2
  | _ => 16
  end.

Definition sample_state : state :=
  match fresh "sbs.mp4" sample_cap with
  | Ok s => s
  | Raise _ => {| self := {| video_path := ""; cap := sample_cap; fps := 0; width := 0;
                             height := 0; frame_count := 0; frame_duration := 0;
                             start_time := None; frame_index := 0; kind := "" |};
                  ticks := 0 |}
  end.

(** A white frame of 480 rows and 640 columns. *)
Definition white : pixel := Px 255 255 255.
Definition white_640x480 : image := replicate 480 (replicate 640 white).

(** A frame of [h] rows and [w] columns whose pixels differ. *)
Definition ramp (h w : nat) : image :=
  (λ r, (λ c, Px (Z.of_nat r) (Z.of_nat c) 7) <$> seq 0 w) <$> seq 0 h.

(** A small media engine: a connection records the descriptions applied to
    it and counts its transceivers; it answers any offer. *)
Record toy_pc := {
  toy_remote : option Signaling.RTCSessionDescription;
  toy_local : option Signaling.RTCSessionDescription;
  toy_transceivers : nat
}.

Definition toy_description (sdp ty : string) : result Signaling.RTCSessionDescription :=
  if bool_decide (ty ∈ ["offer"; "pranswer"; "answer"; "rollback"])
  then Ok {| Signaling.sd_sdp := sdp; Signaling.sd_type := ty |}
  else Raise (ValueError "'type' must be in ['offer', 'pranswer', 'answer', 'rollback']").

#[export] Instance toy_engine : Signaling.Engine toy_pc := {|
  Signaling.description := toy_description;
  Signaling.pc_new := {| toy_remote := None; toy_local := None; toy_transceivers := 0 |};
  Signaling.pc_close := λ _, Ok ();
  Signaling.pc_addTransceiver := λ c _,
    {| toy_remote := toy_remote c; toy_local := toy_local c;
       toy_transceivers := S (toy_transceivers c) |};
  Signaling.pc_setRemoteDescription := λ c d,
    Ok {| toy_remote := Some d; toy_local := toy_local c;
          toy_transceivers := toy_transceivers c |};
  Signaling.pc_createAnswer := λ c,
    match toy_remote c with
    | Some d => Ok {| Signaling.sd_sdp := "v=0 answer"; Signaling.sd_type := "answer" |}
    | None => Raise (Exn "InvalidStateError" "no remote offer")
    end;
  Signaling.pc_setLocalDescription := λ c d,
    Ok {| toy_remote := toy_remote c; toy_local := Some d;
          toy_transceivers := toy_transceivers c |};
  Signaling.pc_localDescription := toy_local
|}.

(** A file system where every path holds the sample asset, and a publisher
    that has served no request yet. *)
Definition sample_open (path : string) : VideoCapture := sample_cap.

Definition idle_publisher : Signaling.WebRTCPublisher (PC:=toy_pc) :=
  {| Signaling.wp_video_path := "sbs.mp4"; Signaling.pc := None;
     Signaling.video_track := None |}.

(** An offer body without its [sdp] field, and a complete one. *)
Definition offer_without_sdp : gmap string string := {[ "type" := "offer" ]}.
Definition offer_complete : gmap string string :=
  <["sdp" := "v=0 offer"]> {[ "type" := "offer" ]}.

End Samples.

(** ** publisher.py: the pacing state as a call finds it *)
Module Pacing.
Import Publisher.

Section Views.
Variable clock : nat → Q.

(** The start time in force at the call that begins in [s]: the one
    recorded, or on the first call the reading line 45 takes. *)
Definition start_in_force (s : state) : Q :=
  match start_time (self s) with
  | Some t0 => t0
  | None => clock (ticks s)
  end.

(** The tick at which line 48 reads the clock. *)
Definition now_tick (s : state) : nat :=
  match start_time (self s) with
  | Some _ => ticks s
  | None => S (ticks s)
  end.

(** The start time, once set, is a clock reading taken earlier. *)
Definition start_is_past_reading (s : state) : Prop :=
  match start_time (self s) with
  | None => True
  | Some t0 => ∃ k, (k < ticks s)%nat ∧ t0 = clock k
  end.

End Views.
End Pacing.

(** ** publisher.py: handle_answer and the /answer handler *)
Module Answering.
Import Publisher Signaling.

Section Handler.
Context {PC : Type} {engine : Engine PC}.

(** [WebRTCPublisher.handle_answer]: without a connection the call logs and
    returns. *)
Definition handle_answer (answer_sdp : string) (p : WebRTCPublisher (PC:=PC))
    : result unit * WebRTCPublisher (PC:=PC) :=
  match pc p with
  | None => (Ok (), p)
  | Some c =>
      match description answer_sdp "answer" with
      | Raise e => (Raise e, p)
      | Ok answer =>
          match pc_setRemoteDescription c answer with
          | Raise e => (Raise e, p)
          | Ok c' => (Ok (), with_session p (Some c') (video_track p))
          end
      end
  end.

(** [answer_handler]: [params["sdp"]] is read only when a connection exists;
    a missing key raises KeyError, whose text is the quoted key. *)
Definition answer_handler (request : option (gmap string string))
    (p : WebRTCPublisher (PC:=PC)) : Response * WebRTCPublisher (PC:=PC) :=
  let failed (e : exn) (p : WebRTCPublisher (PC:=PC)) :=
    ({| status := 500; content_type := "text/plain"; body := Text (exn_msg e) |}, p) in
  let ok (p : WebRTCPublisher (PC:=PC)) :=
    ({| status := 200; content_type := "text/plain"; body := Text "OK" |}, p) in
  match request with
  | None => failed (Exn "JSONDecodeError" "Expecting value") p
  | Some params =>
      match pc p with
      | Some _ =>
          match params !! "sdp" with
          | None => failed (Exn "KeyError" "'sdp'") p
          | Some answer_sdp =>
              match handle_answer answer_sdp p with
              | (Ok _, p) => ok p
              | (Raise e, p) => failed e p
              end
          end
      | None => ok p
      end
  end.

End Handler.
End Answering.

(** ** receiver.py: the receive loop and the canvas *)
Module Display.
Import Receiver.

(** [a[i, j]], where both indices are in range. *)
Definition pixel_at {A} (a : list (list A)) (i j : nat) : option A :=
  row ← a !! i; row !! j.

(** What the canvas shows: the image last drawn and its top-left corner. *)
Record drawn := {
  dr_image : image;
  dr_x : Z;
  dr_y : Z
}.

Section Canvas.
Context {cv : Cv2}.

(** Lines 364-374 of [_update_video_display]: the size the frame is resized
    to for a canvas of the given size. *)
Definition fit (width height canvas_width canvas_height : Z) : result (Z * Z) :=
  frame_aspect ← py_int_truediv width height;
  canvas_aspect ← py_int_truediv canvas_width canvas_height;
  if negb (Qle_bool frame_aspect canvas_aspect) then
    (* frame is wider, fit to width *)
    new_height ← py_int <$> py_truediv (inject_Z canvas_width) frame_aspect;
    Ok (canvas_width, new_height)
  else
    (* frame is taller, fit to height *)
    Ok (py_int (inject_Z canvas_height * frame_aspect), canvas_height).

(** [_update_video_display]: [canvas_width] and [canvas_height] are what the
    widget reports; an exception is logged and leaves the canvas as it was. *)
Definition update_video_display (frame : image) (canvas_width canvas_height : Z)
    (shown : option drawn) : option drawn :=
  let height := img_height frame in
  let width := img_width frame in
  if (1 <? canvas_width) && (1 <? canvas_height) then
    let attempt :=
      '(new_width, new_height) ← fit width height canvas_width canvas_height;
      frame_resized ← cv2_resize frame (new_width, new_height);
      let x := (canvas_width - new_width) / 2 in
      let y := (canvas_height - new_height) / 2 in
      Ok {| dr_image := frame_resized; dr_x := x; dr_y := y |} in
    match attempt with
    | Ok d => Some d
    | Raise _ => shown
    end
  else shown.

(** [handle_video_track]: [incoming] lists the frames [track.recv()] yields
    before the track ends, each with the mode and offset the widgets hold
    when it is processed; the result lists the frames handed to the canvas.
    The first exception leaves the loop. *)
Fixpoint handle_video_track (incoming : list (image * string * Z)) : list image :=
  match incoming with
  | [] => []
  | (img, mode, offset) :: rest =>
      match process_3d_frame mode offset img with
      | Ok processed_img => processed_img :: handle_video_track rest
      | Raise _ => []
      end
  end.

End Canvas.
End Display.

Module PublisherProofs.
Import Publisher Samples.

Lemma py_int_ge_floor (fc : Z) (q : Q) :
  0 < fc → (fc <= py_int q ↔ fc <= Qfloor q).
Proof.
  intros Hfc. destruct q as [n d]. unfold py_int, Qfloor. simpl.
  destruct (Z.le_gt_cases 0 n) as [Hn|Hn].
  - rewrite Z.quot_div_nonneg by lia. reflexivity.
  - assert (Z.quot n (Z.pos d) <= 0) by (apply Z.quot_le_upper_bound; lia).
    assert (n / Z.pos d < 0) by (apply Z.div_lt_upper_bound; lia).
    lia.
Qed.

Lemma py_int_floor_nonneg (q : Q) : (0 <= q)%Q → py_int q = Qfloor q.
Proof.
  destruct q as [n d]. unfold Qle, py_int, Qfloor. simpl. intros Hn.
  apply Z.quot_div_nonneg; lia.
Qed.

Lemma py_int_nonzero (q : Q) : (1 <= q)%Q ∨ (q <= -1)%Q → py_int q ≠ 0.
Proof.
  destruct q as [n d]. unfold Qle, py_int. simpl. intros [Hq|Hq].
  - assert (1 <= Z.quot n (Z.pos d)); [|lia].
    apply Z.quot_le_lower_bound; lia.
  - assert (Z.quot n (Z.pos d) = - Z.quot (- n) (Z.pos d)) as ->.
    { rewrite Z.quot_opp_l by lia. lia. }
    assert (1 <= Z.quot (- n) (Z.pos d)); [|lia].
    apply Z.quot_le_lower_bound; lia.
Qed.

Lemma scaled_away_from_zero (t : Z) (q : Q) :
  (1 <= q)%Q → t ≠ 0 → (1 <= inject_Z t * q)%Q ∨ (inject_Z t * q <= -1)%Q.
Proof.
  destruct q as [n d]. unfold Qle. simpl. intros Hq Ht.
  destruct (Z.lt_trichotomy t 0) as [?|[?|?]]; [right|done|left]; nia.
Qed.

Ltac unfold_recv :=
  unfold recv, recv_pace, recv_emit, cvtColor_BGR2RGB, cap_read, cap_set_pos,
    time_time, set_start_time, set_cap, get_self, raise, mbind, M_bind, bind, ret;
  cbn.

Ltac branch :=
  match goal with
  | |- context [if ?b then _ else _] => destruct b eqn:?
  | |- context [match cap_frames ?c ?i with _ => _ end] =>
      destruct (cap_frames c i) eqn:?
  end; cbn.

Section Steps.
Variable clock : nat → Q.

(** What one call of [recv] leaves of the track's metadata. *)
Lemma recv_keeps_metadata (s : state) :
  let s' := (recv clock s).1.2 in
  frame_count (self s') = frame_count (self s) ∧
  fps (self s') = fps (self s) ∧
  frame_duration (self s') = frame_duration (self s) ∧
  frame_index (self s') = frame_index (self s).
Proof.
  destruct s as [[vp c f w h fc fd st fi kd] k].
  unfold_recv.
  destruct st as [t0|]; cbn; repeat branch; done.
Qed.

Lemma recv_call_in_range (s : state) :
  0 < frame_count (self s) →
  let l := (recv clock s).2 in
  Forall (λ i, i < frame_count (self s)) (seeks l) ∧
  Forall (λ i, i < frame_count (self s)) (reads l) ∧
  (loop_reset l = true ↔
   frame_count (self s) <= Qfloor (elapsed clock s * fps (self s))).
Proof.
  intros Hfc l. subst l.
  rewrite <- py_int_ge_floor by done.
  destruct s as [[vp c f w h fc fd st fi kd] k]. cbn in Hfc.
  unfold_recv. unfold elapsed. cbn.
  destruct st as [t0|]; cbn.
  - generalize (py_int ((clock k - t0) * f)). intros tgt.
    destruct (Z.leb_spec fc tgt) as [Hl|Hl]; cbn.
    + repeat branch; repeat split; repeat constructor; done.
    + repeat branch; repeat split; repeat constructor; try done; try lia;
        destruct tgt; done.
  - generalize (py_int ((clock (S k) - clock k) * f)). intros tgt.
    destruct (Z.leb_spec fc tgt) as [Hl|Hl]; cbn.
    + repeat branch; repeat split; repeat constructor; done.
    + repeat branch; repeat split; repeat constructor; try done; try lia;
        destruct tgt; done.
Qed.

Lemma recv_stamp (s : state) (fr : VideoFrame) :
  (recv clock s).1.1 = Ok fr →
  vf_pts fr =
    py_int (inject_Z (target_index clock s) * frame_duration (self s) * 90000) ∧
  vf_time_base fr = (1, 90000).
Proof.
  destruct s as [[vp c f w h fc fd st fi kd] k].
  unfold target_index. unfold_recv.
  destruct st as [t0|]; cbn; repeat branch; intros [= <-]; done.
Qed.

Lemma run_metadata (n : nat) (s : state) :
  Forall (λ c, frame_count (self (call_pre c)) = frame_count (self s) ∧
               fps (self (call_pre c)) = fps (self s) ∧
               frame_duration (self (call_pre c)) = frame_duration (self s) ∧
               frame_index (self (call_pre c)) = frame_index (self s) ∧
               call_result c = (recv clock (call_pre c)).1.1 ∧
               call_post c = (recv clock (call_pre c)).1.2 ∧
               call_events c = (recv clock (call_pre c)).2)
    (run clock n s).
Proof.
  revert s. induction n as [|n IH]; intros s; cbn; [constructor|].
  pose proof (recv_keeps_metadata s) as Hm.
  destruct (recv clock s) as [[r s'] l] eqn:Hr. cbn in Hm.
  destruct Hm as (Hfc & Hfps & Hfd & Hfi).
  constructor.
  - cbn. rewrite Hr. done.
  - eapply Forall_impl; [apply IH|]. cbn. intros c (? & ? & ? & ? & ?).
    repeat split; try congruence; tauto.
Qed.

End Steps.






(** C7, as stated, fails: the call that loops leaves [start_time] at the
    clock reading 15.5, not at [None]; and the call whose decode fails at
    frame 91 keeps the start time it had and takes no loop reset. *)
Lemma recv_loop_start_time_not_none :
  (let r := recv late_clock sample_state in
   loop_reset r.2 = true ∧
   start_time (self r.1.2) = Some (31 # 2)%Q ∧
   start_time (self r.1.2) ≠ None) ∧
  (let s1 := (recv sample_clock sample_state).1.2 in
   let r := recv sample_clock s1 in
   cap_frames (cap (self s1)) (target_index sample_clock s1) = None ∧
   start_time (self r.1.2) = start_time (self s1) ∧
   start_time (self r.1.2) ≠ None ∧
   loop_reset r.2 = false).
Proof. vm_compute. repeat split; congruence. Qed.

(** C7, amended: a track is built with pacing state (None, 0); [recv] never
    writes [frame_index]; on a call that loops the selected index is 0 and
    [start_time] becomes the clock reading taken at the reset, the last one
    of the call; when decoding fails at the selected index the capture is
    sought to 0 and decoded there. *)
Theorem recv_pacing_state (clock : nat → Q) (s : state) :
  let r := recv clock s in
  (∀ path c t, init path c = Ok t → start_time t = None ∧ frame_index t = 0) ∧
  frame_index (self r.1.2) = frame_index (self s) ∧
  (loop_reset r.2 = true →
   target_index clock s = 0 ∧
   start_time (self r.1.2) = Some (clock (Nat.pred (ticks r.1.2)))) ∧
  (cap_frames (cap (self s)) (target_index clock s) = None →
   reads r.2 = [target_index clock s; 0] ∧ last (seeks r.2) = Some 0).
Proof.
  split; [|split; [|split]].
  - intros path c t. unfold init. destruct (cap_opened c); cbn; [|done].
    destruct (py_truediv 1 (cap_fps c)); cbn; [|done]. by intros [= <-].
  - apply recv_keeps_metadata.
  - destruct s as [[vp c f w h fc fd st fi kd] k].
    unfold target_index. unfold_recv.
    destruct st as [t0|]; cbn.
    + generalize (py_int ((clock k - t0) * f)). intros tgt.
      destruct (fc <=? tgt); cbn; repeat branch; try done;
        destruct tgt; done.
    + generalize (py_int ((clock (S k) - clock k) * f)). intros tgt.
      destruct (fc <=? tgt); cbn; repeat branch; try done;
        destruct tgt; done.
  - destruct s as [[vp c f w h fc fd st fi kd] k].
    unfold target_index. unfold_recv.
    destruct st as [t0|]; cbn.
    + generalize (py_int ((clock k - t0) * f)). intros tgt.
      destruct (fc <=? tgt); cbn; intros ->; repeat branch; done.
    + generalize (py_int ((clock (S k) - clock k) * f)). intros tgt.
      destruct (fc <=? tgt); cbn; intros ->; repeat branch; done.
Qed.

Lemma recv_pacing_state_witness :
  let r := recv late_clock sample_state in
  loop_reset r.2 = true ∧
  target_index late_clock sample_state = 0 ∧
  start_time (self r.1.2) = Some (late_clock (Nat.pred (ticks r.1.2))).
Proof.
  pose proof (recv_pacing_state late_clock sample_state) as (_ & _ & Hloop & _).
  split; [reflexivity|]. apply Hloop. reflexivity.
Defined.

(** C9, as stated, fails: with a frame rate of zero the constructor raises
    ZeroDivisionError, from the division [1.0 / self.fps]. *)
Lemma init_zero_fps_not_invalid_asset :
  ∃ e, init "sbs.mp4" zero_fps_cap = Raise e ∧
       exn_class e = "ZeroDivisionError" ∧
       exn_class e ≠ "InvalidAssetError".
Proof. eexists. split; [reflexivity|]. split; [reflexivity|]. discriminate. Qed.

(** C9, amended: a capture that did not open makes the constructor raise
    ValueError; an opened capture reporting a frame rate of zero makes it
    raise ZeroDivisionError; in both cases no track exists.  A track that was
    built has a non-zero frame rate, and no call of [recv] on it raises
    ZeroDivisionError. *)
Theorem init_zero_fps_raises (path : string) (c : VideoCapture) :
  (cap_opened c = false →
   init path c = Raise (ValueError ("Could not open video file: " +:+ path))) ∧
  (cap_opened c = true → (cap_fps c == 0)%Q →
   init path c = Raise (ZeroDivisionError "float division by zero")) ∧
  (∀ t, init path c = Ok t →
   ¬ (fps t == 0)%Q ∧
   ∀ clock n, Forall (λ k, ∀ e, call_result k = Raise e →
                             exn_class e ≠ "ZeroDivisionError")
                (run clock n {| self := t; ticks := 0 |})).
Proof.
  unfold init, py_truediv. split; [|split].
  - by intros ->.
  - intros -> Hz. apply Qeq_bool_iff in Hz. cbn. by rewrite Hz.
  - intros t. destruct (cap_opened c); cbn; [|done].
    destruct (Qeq_bool (cap_fps c) 0) eqn:Hz; cbn; [done|].
    intros [= <-]. cbn. split.
    + intros Hq. apply Qeq_bool_iff in Hq. congruence.
    + intros clock n. eapply Forall_impl; [apply run_metadata|].
      intros k (_ & _ & _ & _ & Hr & _ & _) e. rewrite Hr. clear.
      destruct (call_pre k) as [[vp c f w h fc fd st fi kd] j].
      unfold_recv.
      destruct st as [t0|]; cbn; repeat branch; intros [= <-]; done.
Qed.

Lemma init_zero_fps_raises_witness :
  init "sbs.mp4" zero_fps_cap = Raise (ZeroDivisionError "float division by zero") ∧
  ¬ (fps (self sample_state) == 0)%Q.
Proof.
  pose proof (init_zero_fps_raises "sbs.mp4" zero_fps_cap) as (_ & Hz & _).
  pose proof (init_zero_fps_raises "sbs.mp4" sample_cap) as (_ & _ & Hok).
  split.
  - apply Hz; reflexivity.
  - apply (Hok (self sample_state)). reflexivity.
Defined.

(** C10: when decoding fails at the selected index and frame 0 decodes, the
    call emits frame 0 stamped with the timestamp of the selected index,
    which is not 0; the fallback reads no clock and leaves [start_time] as
    the pacing step set it.  At a frame duration of at least one tick of the
    90 kHz clock the timestamp differs from 0, the timestamp of frame 0. *)
Theorem recv_fallback_keeps_target_pts
    (clock : nat → Q) (s : state) (f0 : image) :
  let target := target_index clock s in
  let paced := (recv_pace clock s).1.2 in
  cap_frames (cap (self s)) target = None →
  cap_frames (cap (self s)) 0 = Some f0 →
  img_empty f0 = false →
  ∃ fr s' l,
    recv clock s = (Ok fr, s', l) ∧
    vf_data fr = img_map bgr2rgb f0 ∧
    vf_pts fr = py_int (inject_Z target * frame_duration (self s) * 90000) ∧
    target ≠ 0 ∧
    start_time (self s') = start_time (self paced) ∧
    ticks s' = ticks paced ∧
    l = (recv_pace clock s).2
          ++ [ECapSet target; ECapRead target false; ECapSet 0; ECapRead 0 true] ∧
    ((1 <= frame_duration (self s) * 90000)%Q → vf_pts fr ≠ 0).
Proof.
  intros target paced Hfail H0 Hne.
  assert (target ≠ 0) as Hnz by (intros Hz; rewrite Hz in Hfail; congruence).
  assert ((1 <= frame_duration (self s) * 90000)%Q →
          py_int (inject_Z target * frame_duration (self s) * 90000) ≠ 0) as Hpts.
  { intros Hfd. apply py_int_nonzero.
    rewrite <- Qmult_assoc. by apply scaled_away_from_zero. }
  revert Hpts. subst target paced. revert Hfail H0 Hnz.
  destruct s as [[vp c f w h fc fd st fi kd] k].
  unfold target_index. unfold_recv.
  destruct st as [t0|]; cbn.
  - generalize (py_int ((clock k - t0) * f)). intros tgt.
    destruct (fc <=? tgt); cbn; intros Hfail H0 Hnz Hpts; [congruence|].
    rewrite Hfail; cbn. rewrite H0; cbn. rewrite Hne; cbn.
    do 3 eexists. repeat split; done.
  - generalize (py_int ((clock (S k) - clock k) * f)). intros tgt.
    destruct (fc <=? tgt); cbn; intros Hfail H0 Hnz Hpts; [congruence|].
    rewrite Hfail; cbn. rewrite H0; cbn. rewrite Hne; cbn.
    do 3 eexists. repeat split; done.
Qed.

Lemma recv_fallback_keeps_target_pts_witness :
  let s1 := (recv sample_clock sample_state).1.2 in
  ∃ fr s' l,
    recv sample_clock s1 = (Ok fr, s', l) ∧
    vf_data fr = img_map bgr2rgb sample_frame ∧
    vf_pts fr = 1170000 ∧
    start_time (self s') = Some 0%Q.
Proof.
  intros s1.
  destruct (recv_fallback_keeps_target_pts sample_clock s1 sample_frame)
    as (fr & s' & l & Hr & Hd & Hp & _ & Hs & _); [reflexivity..|].
  exists fr, s', l. repeat split; [exact Hr|exact Hd|exact Hp|exact Hs].
Defined.

End PublisherProofs.

Module ReceiverProofs.
Import Receiver Samples.

(** *** The sampling OpenCV satisfies the interface *)

Lemma nearest_length {A} (d : A) (n : nat) (l : list A) : length (nearest d n l) = n.
Proof. unfold nearest. by rewrite length_fmap, length_seq. Qed.

Lemma nearest_resize_rows (src : image) (w h : nat) :
  length (nearest_resize src w h) = h.
Proof. unfold nearest_resize. by rewrite length_fmap, nearest_length. Qed.

Lemma nearest_resize_cols (src : image) (w h : nat) :
  rect w (nearest_resize src w h).
Proof.
  unfold nearest_resize, rect. apply Forall_fmap, Forall_forall.
  intros r _. apply nearest_length.
Qed.

#[export] Instance nearest_cv2 : Cv2 :=
  {| resize_kernel := nearest_resize; rgb2gray := luminance;
     resize_kernel_rows := nearest_resize_rows;
     resize_kernel_cols := nearest_resize_cols |}.

(** *** Arithmetic of [int(a / b)] *)

Lemma py_int_inject_div (a b : Z) :
  b ≠ 0 → py_int (inject_Z a / inject_Z b) = Z.quot a b.
Proof.
  intros Hb. unfold py_int, Qdiv, Qmult, Qinv, inject_Z. simpl.
  destruct b as [|p|p]; [done| |]; simpl.
  - by rewrite Z.mul_1_r.
  - rewrite <- (Z.opp_involutive (Z.quot a (Z.neg p))).
    rewrite <- Z.quot_opp_l by done. rewrite <- Z.quot_opp_r by done.
    rewrite Z.quot_opp_l by done. f_equal. simpl.
    rewrite <- Z.quot_opp_l by done. f_equal. lia.
Qed.

(** *** Slices *)

Lemma slice_range_from (len : nat) (i : Z) :
  0 <= i → slice_range len (Slice (Some i) None) = (Nat.min (Z.to_nat i) len, len).
Proof.
  intros Hi. unfold slice_range, py_bound. cbn.
  destruct (Z.ltb_spec i 0); [lia|]. f_equal; lia.
Qed.

Lemma slice_range_to (len : nat) (i : Z) :
  0 <= i → slice_range len (Slice None (Some i)) = (0%nat, Nat.min (Z.to_nat i) len).
Proof.
  intros Hi. unfold slice_range, py_bound. cbn.
  destruct (Z.ltb_spec i 0); [lia|]. f_equal; lia.
Qed.

Lemma slice_range_to_neg (len : nat) (i : Z) :
  0 < i → slice_range len (Slice None (Some (- i))) = (0%nat, (len - Z.to_nat i)%nat).
Proof.
  intros Hi. unfold slice_range, py_bound. cbn.
  destruct (Z.ltb_spec (- i) 0); [|lia]. f_equal; lia.
Qed.

Lemma slice_range_all (len : nat) : slice_range len (Slice None None) = (0%nat, len).
Proof. unfold slice_range. cbn. f_equal; lia. Qed.

Lemma slice_range_window (len : nat) (i n : Z) :
  0 <= i → 0 <= n → i + n <= Z.of_nat len →
  slice_range len (Slice (Some i) (Some (i + n)))
  = (Z.to_nat i, (Z.to_nat i + Z.to_nat n)%nat).
Proof.
  intros Hi Hn Hle. unfold slice_range, py_bound. cbn.
  destruct (Z.ltb_spec i 0); [lia|]. destruct (Z.ltb_spec (i + n) 0); [lia|].
  f_equal; lia.
Qed.

Lemma slice_range_bounds (len : nat) (sl : pyslice) :
  ((slice_range len sl).1 <= (slice_range len sl).2 <= len)%nat.
Proof.
  destruct sl as [[i|] [j|]]; unfold slice_range, py_bound; cbn;
    repeat case_match; lia.
Qed.

Lemma py_slice_from {A} (l : list A) (i : Z) :
  0 <= i → py_slice (Slice (Some i) None) l = drop (Z.to_nat i) l.
Proof.
  intros Hi. unfold py_slice. rewrite slice_range_from by done.
  destruct (Nat.le_gt_cases (Z.to_nat i) (length l)).
  - rewrite Nat.min_l by done. apply take_ge. rewrite length_drop. lia.
  - rewrite Nat.min_r by lia. rewrite !drop_ge by lia. by rewrite take_nil.
Qed.

Lemma py_slice_to_neg {A} (l : list A) (i : Z) :
  0 < i → py_slice (Slice None (Some (- i))) l = take (length l - Z.to_nat i) l.
Proof.
  intros Hi. unfold py_slice. rewrite slice_range_to_neg by done.
  by rewrite drop_0, Nat.sub_0_r.
Qed.

(** *** Shapes *)

Lemma rect_img_width {A} (w : nat) (a : list (list A)) :
  rect w a → a ≠ [] → img_width a = Z.of_nat w.
Proof.
  destruct a as [|r a]; [done|]. intros Hr _. cbn.
  by rewrite (Forall_inv Hr).
Qed.

Lemma rect_img_empty {A} (w : nat) (a : list (list A)) :
  rect w a → img_empty a = bool_decide (length a = 0%nat ∨ w = 0%nat).
Proof.
  intros Hr. unfold img_empty, img_height.
  destruct a as [|r a]; [by rewrite bool_decide_true by auto|].
  rewrite (rect_img_width w) by done. cbn [length].
  destruct (Z.eqb_spec (Z.of_nat (S (length a))) 0); [lia|]. cbn.
  destruct (Z.eqb_spec (Z.of_nat w) 0).
  - rewrite bool_decide_true; [done|lia].
  - rewrite bool_decide_false; [done|lia].
Qed.

Lemma rectangular_rect {A} (w : nat) (a : list (list A)) :
  rect w a → rectangular a.
Proof.
  intros Hr. unfold rectangular. destruct a as [|r a]; [constructor|].
  by rewrite (rect_img_width w), Nat2Z.id.
Qed.

Lemma zeros_like_rect {A B} (z : B) (w : nat) (a : list (list A)) :
  rect w a → zeros_like z a = replicate (length a) (replicate w z).
Proof.
  unfold zeros_like, img_map. induction 1 as [|r a Hr _ IH]; [done|].
  cbn. rewrite IH. f_equal. clear -Hr. subst w.
  induction r; cbn; by f_equal.
Qed.

Lemma stretch_same {A} (n : nat) (l : list A) : length l = n → stretch n l = l.
Proof. destruct l as [|x [|y l]]; try done. by intros <-. Qed.

Lemma broadcastable_same (n : nat) : broadcastable n n = true.
Proof. unfold broadcastable. by rewrite bool_decide_true. Qed.

Lemma broadcastable_false (src tgt : nat) :
  src ≠ tgt → src ≠ 1%nat → broadcastable src tgt = false.
Proof. intros ??. unfold broadcastable. by rewrite !bool_decide_false. Qed.

(** *** Slice assignment *)

(** Where the shapes agree the assignment replaces the block row by row. *)
Lemma np_setitem_block {A} (dst src : list (list A)) (rs cs : pyslice)
    (w r0 c0 sh sw : nat) :
  rect w dst → dst ≠ [] →
  slice_range (length dst) rs = (r0, (r0 + sh)%nat) →
  slice_range w cs = (c0, (c0 + sw)%nat) →
  length src = sh → rect sw src → src ≠ [] →
  np_setitem dst rs cs src =
    Ok (take r0 dst
        ++ zip_with (λ d s, take c0 d ++ s ++ drop (c0 + sw) d)
             (take sh (drop r0 dst)) src
        ++ drop (r0 + sh) dst).
Proof.
  intros Hd Hdne Hrs Hcs Hsh Hs Hsne. unfold np_setitem.
  rewrite (rect_img_width w dst), (rect_img_width sw src), !Nat2Z.id by done.
  rewrite Hrs, Hcs.
  replace (r0 + sh - r0)%nat with sh by lia.
  replace (c0 + sw - c0)%nat with sw by lia.
  rewrite Hsh, !broadcastable_same. cbn.
  rewrite (stretch_same sh src) by done.
  do 3 f_equal. apply Forall_zip_with_ext_r; [done|].
  eapply Forall_impl; [exact Hs|]. intros s Hlen d. cbn in Hlen.
  by rewrite stretch_same.
Qed.

(** Where the source has more rows than the target can hold, or columns of
    another width, NumPy refuses. *)
Lemma np_setitem_mismatch {A} (dst src : list (list A)) (rs cs : pyslice) (w sw : nat) :
  rect w dst → dst ≠ [] → rect sw src → src ≠ [] →
  (length dst < length src)%nat
  ∨ (sw ≠ 1%nat ∧ sw ≠ ((slice_range w cs).2 - (slice_range w cs).1)%nat) →
  np_setitem dst rs cs src = Raise (ValueError "could not broadcast input array").
Proof.
  intros Hd Hdne Hs Hsne Hbad. unfold np_setitem.
  rewrite (rect_img_width w dst), (rect_img_width sw src), !Nat2Z.id by done.
  pose proof (slice_range_bounds (length dst) rs) as Hb.
  destruct (slice_range (length dst) rs) as [r0 r1].
  destruct (slice_range w cs) as [c0 c1]. cbn in *.
  destruct Hbad as [Hrows|[Hc1 Hc2]].
  - rewrite (broadcastable_false (length src)); [done|lia|].
    destruct dst; [done|]. cbn in Hrows. lia.
  - rewrite (broadcastable_false sw) by done. by rewrite andb_false_r.
Qed.

(** *** The side-by-side branches *)

Lemma img_width_nonneg {A} (a : list (list A)) : 0 <= img_width a.
Proof. destruct a; cbn; lia. Qed.

Lemma rect_app {A} (w : nat) (a b : list (list A)) :
  rect w a → rect w b → rect w (a ++ b).
Proof. apply Forall_app_2. Qed.

Lemma rect_replicate {A} (n w : nat) (x : A) : rect w (replicate n (replicate w x)).
Proof. apply Forall_replicate, length_replicate. Qed.

(** The frame after the left half was written: the view, padded with the
    black right half, between the black margins. *)
Lemma left_half_written (h w y nh w2 : nat) (a : image) :
  (y + nh <= h)%nat → (w2 <= w)%nat → length a = nh → rect w2 a →
  take y (replicate h (replicate w black))
    ++ zip_with (λ d s, take 0 d ++ s ++ drop (0 + w2) d)
         (take nh (drop y (replicate h (replicate w black)))) a
    ++ drop (y + nh) (replicate h (replicate w black))
  = replicate y (replicate w black)
    ++ ((λ s, s ++ replicate (w - w2) black) <$> a)
    ++ replicate (h - y - nh) (replicate w black).
Proof.
  intros Hy Hw Ha Hr.
  rewrite take_replicate, !drop_replicate, take_replicate.
  rewrite (Nat.min_l y h) by lia. rewrite (Nat.min_l nh) by lia.
  rewrite zip_with_replicate_l by lia.
  replace (h - (y + nh))%nat with (h - y - nh)%nat by lia.
  do 2 f_equal. apply list_fmap_ext. intros _ s _. cbn.
  by rewrite drop_replicate.
Qed.

(** The frame after the right half was written as well. *)
Lemma right_half_written (h w y nh w2 : nat) (a b : image) :
  (y + nh <= h)%nat → w = (w2 + w2)%nat →
  length a = nh → length b = nh → rect w2 a → rect w2 b →
  let s1 := replicate y (replicate w black)
            ++ ((λ s, s ++ replicate (w - w2) black) <$> a)
            ++ replicate (h - y - nh) (replicate w black) in
  take y s1
    ++ zip_with (λ d s, take w2 d ++ s ++ drop (w2 + w2) d) (take nh (drop y s1)) b
    ++ drop (y + nh) s1
  = layout w y (h - y - nh) a b.
Proof.
  intros Hy Hw Ha Hb Hra Hrb s1. subst s1. unfold layout.
  rewrite take_app_length' by by rewrite length_replicate.
  rewrite drop_app_length' by by rewrite length_replicate.
  rewrite take_app_length' by by rewrite length_fmap.
  rewrite drop_app_add' by by rewrite length_replicate.
  rewrite drop_app_length' by by rewrite length_fmap.
  do 2 f_equal. rewrite zip_with_fmap_l.
  clear Hy. revert b nh Ha Hb Hrb.
  induction Hra as [|r a Hr _ IH]; intros [|rb b] nh Ha Hb Hrb; try done.
  cbn. f_equal.
  - rewrite take_app_length' by done.
    rewrite drop_ge; [by rewrite app_nil_r|].
    rewrite length_app, length_replicate. lia.
  - cbn in Ha, Hb. apply (IH b (length a)); [done|lia|].
    by apply Forall_inv_tail in Hrb.
Qed.

Section SideBySide.
Context {cv : Cv2}.

(** The outcome of a side-by-side branch on a rectangular frame and an
    offset of at least 10, for crops of the shape both branches take. *)
Lemma side_by_side_outcome (f A B : image) (o : Z) :
  rectangular f → 10 <= o →
  length A = length f → length B = length f →
  rect (Z.to_nat (img_width f - o)) A → rect (Z.to_nat (img_width f - o)) B →
  let W := img_width f in
  let H := img_height f in
  let nh := new_height W H o in
  let y := y_offset H nh in
  side_by_side f o A B =
    if W - o =? 0 then Raise (ZeroDivisionError "division by zero")
    else if (H =? 0) || (W - o <? 0)
    then Raise (cv2_error "!ssize.empty() in function 'resize'")
    else if nh <=? 0 then Raise (cv2_error "!dsize.empty() in function 'resize'")
    else if (nh <=? H) && Z.even W
    then Ok (layout (Z.to_nat W) (Z.to_nat y) (Z.to_nat (H - y - nh))
               (resize_kernel A (Z.to_nat (W / 2)) (Z.to_nat nh))
               (resize_kernel B (Z.to_nat (W / 2)) (Z.to_nat nh)))
    else Raise (ValueError "could not broadcast input array").
Proof.
  intros Hf Ho HA HB HrA HrB W H0 nh y.
  unfold side_by_side. fold W H0. unfold py_int_truediv.
  destruct (Z.eqb_spec (W - o) 0) as [Hz|Hz]; [done|].
  cbn [fmap result_fmap result_map result_bind mbind result_mbind].
  rewrite py_int_inject_div by done. fold (new_height W H0 o). fold nh.
  unfold cv2_resize.
  rewrite (rect_img_empty _ A), (rect_img_empty _ B) by done.
  rewrite HA, HB.
  assert (H0 = Z.of_nat (length f)) as HH by done.
  assert (0 <= W) as HW by apply img_width_nonneg.
  destruct (Z.eqb_spec H0 0) as [Hh|Hh]; cbn [orb].
  { rewrite bool_decide_true by lia. done. }
  destruct (Z.ltb_spec (W - o) 0) as [Hlt|Hge].
  { rewrite bool_decide_true by lia. done. }
  rewrite bool_decide_false by lia.
  destruct (Z.leb_spec (W / 2) 0) as [Hw2|Hw2]; cbn [orb].
  { exfalso. assert (2 <= W) by lia. pose proof (Z.div_le_lower_bound W 2 1). lia. }
  destruct (Z.leb_spec nh 0) as [Hnh|Hnh]; [done|].
  cbn [mbind result_mbind result_bind].
  fold (y_offset H0 nh). fold y.
  set (w := Z.to_nat W). set (w2 := Z.to_nat (W / 2)). set (nhn := Z.to_nat nh).
  set (a := resize_kernel A w2 nhn). set (b := resize_kernel B w2 nhn).
  assert (length a = nhn) as Hla by apply resize_kernel_rows.
  assert (length b = nhn) as Hlb by apply resize_kernel_rows.
  assert (rect w2 a) as Hra by apply resize_kernel_cols.
  assert (rect w2 b) as Hrb by apply resize_kernel_cols.
  assert (a ≠ []) as Hane by (intros Ha; rewrite Ha in Hla; cbn in Hla; lia).
  assert (b ≠ []) as Hbne by (intros Hb; rewrite Hb in Hlb; cbn in Hlb; lia).
  assert (f ≠ []) as Hfne by (intros ->; cbn in HH; lia).
  rewrite (zeros_like_rect black w f) by done.
  set (z := replicate (length f) (replicate w black)).
  assert (rect w z) as Hrz by apply rect_replicate.
  assert (z ≠ []) as Hzne by (subst z; destruct f; done).
  assert (length z = length f) as Hlz by apply length_replicate.
  assert (W = Z.of_nat w) as HWw by lia.
  assert (W / 2 = Z.of_nat w2) as HWw2 by lia.
  assert (W / 2 <= W) as Hhalf by (apply Z.div_le_upper_bound; lia).
  destruct (Z.leb_spec nh H0) as [Hfit|Hbig]; cbn [andb].
  - assert (0 <= y ∧ y + nh <= H0) as [Hy0 Hy1].
    { unfold y, y_offset. split; [apply Z.div_pos; lia|].
      pose proof (Z.div_le_upper_bound (H0 - nh) 2 (H0 - nh)). lia. }
    rewrite (np_setitem_block z a _ _ w (Z.to_nat y) 0 nhn w2); try done; cycle 1.
    { rewrite Hlz. apply slice_range_window; lia. }
    { rewrite slice_range_to by lia. f_equal. lia. }
    cbn [mbind result_mbind result_bind].
    unfold z. rewrite left_half_written by (try done; lia).
    set (s1 := _ ++ _ ++ _).
    assert (rect w s1) as Hrs1.
    { subst s1. repeat apply rect_app; try apply rect_replicate.
      apply Forall_fmap. eapply Forall_impl; [exact Hra|]. cbn. intros r Hr.
      rewrite length_app, length_replicate. lia. }
    assert (length s1 = length f) as Hls1.
    { subst s1. rewrite !length_app, length_fmap, !length_replicate. lia. }
    assert (s1 ≠ []) as Hs1ne by (intros Hs; rewrite Hs in Hls1; destruct f; done).
    destruct (Z.even W) eqn:Hev.
    + assert (w = (w2 + w2)%nat) as Hww.
      { apply Zeven_bool_iff, Zeven_div2 in Hev. rewrite Zdiv2_div in Hev. lia. }
      rewrite (np_setitem_block s1 b _ _ w (Z.to_nat y) w2 nhn w2); try done; cycle 1.
      { rewrite Hls1. apply slice_range_window; lia. }
      { rewrite slice_range_from by lia. f_equal; lia. }
      cbn [mbind result_mbind result_bind]. f_equal. subst s1.
      replace (Z.to_nat (H0 - y - nh)) with (length f - Z.to_nat y - nhn)%nat by lia.
      by apply right_half_written; try done; lia.
    + rewrite (np_setitem_mismatch s1 b _ _ w w2); try done. right.
      rewrite slice_range_from by lia. cbn.
      assert (Z.odd W = true) as Hodd by (by rewrite <- Z.negb_even, Hev).
      apply Zodd_bool_iff, Zodd_div2 in Hodd. rewrite Zdiv2_div in Hodd. lia.
  - rewrite (np_setitem_mismatch z a _ _ w w2); try done. left. lia.
Qed.

End SideBySide.

Section Claims.
Context {cv : Cv2}.

Lemma process_cross_eye (f : image) (o : Z) :
  process_3d_frame "side_by_side_cross_eye" o f
  = side_by_side f o (col_slice (Slice (Some o) None) f)
      (col_slice (Slice None (Some (- o))) f).
Proof. reflexivity. Qed.

Lemma process_parallel (f : image) (o : Z) :
  process_3d_frame "side_by_side_parallel" o f
  = side_by_side f o (col_slice (Slice None (Some (- o))) f)
      (col_slice (Slice (Some o) None) f).
Proof. reflexivity. Qed.

End Claims.

(** The crops of both branches have the frame's rows and [width - offset]
    columns. *)
Lemma crop_left_rect {A} (f : list (list A)) (o : Z) :
  rectangular f → 0 < o →
  rect (Z.to_nat (img_width f - o)) (col_slice (Slice (Some o) None) f).
Proof.
  intros Hf Ho. unfold col_slice. apply Forall_fmap.
  destruct f as [|r0 f]; [constructor|]. unfold rectangular in Hf.
  eapply Forall_impl; [exact Hf|]. intros r Hr. unfold compose. cbv beta in Hr |- *.
  rewrite py_slice_from, length_drop by lia. lia.
Qed.

Lemma crop_right_rect {A} (f : list (list A)) (o : Z) :
  rectangular f → 0 < o →
  rect (Z.to_nat (img_width f - o)) (col_slice (Slice None (Some (- o))) f).
Proof.
  intros Hf Ho. unfold col_slice. apply Forall_fmap.
  destruct f as [|r0 f]; [constructor|]. unfold rectangular in Hf.
  eapply Forall_impl; [exact Hf|]. intros r Hr. unfold compose. cbv beta in Hr |- *.
  rewrite py_slice_to_neg, length_take by lia. lia.
Qed.

Lemma col_slice_length {A} (sl : pyslice) (f : list (list A)) :
  length (col_slice sl f) = length f.
Proof. apply length_fmap. Qed.

Lemma py_slice_to {A} (l : list A) (i : Z) :
  0 <= i → py_slice (Slice None (Some i)) l = take (Z.to_nat i) l.
Proof.
  intros Hi. unfold py_slice. rewrite slice_range_to by done.
  rewrite drop_0, Nat.sub_0_r. destruct (Nat.le_gt_cases (Z.to_nat i) (length l)).
  - by rewrite Nat.min_l.
  - rewrite Nat.min_r by lia. by rewrite !take_ge by lia.
Qed.

(** The two halves of a laid-out frame. *)
Lemma layout_left_half (w2 top bottom : nat) (a b : image) :
  rect w2 a → length a = length b →
  col_slice (Slice None (Some (Z.of_nat w2))) (layout (w2 + w2) top bottom a b)
  = replicate top (replicate w2 black) ++ a ++ replicate bottom (replicate w2 black).
Proof.
  intros Ha Hab. unfold col_slice, layout.
  rewrite !fmap_app, !fmap_replicate.
  rewrite (py_slice_to (replicate (w2 + w2) black)) by lia.
  rewrite Nat2Z.id, take_replicate, Nat.min_l by lia. do 2 f_equal.
  revert b Hab. induction Ha as [|r a Hr _ IH]; intros [|rb b] Hab; try done.
  cbn [zip_with fmap list_fmap].
  rewrite py_slice_to, Nat2Z.id by lia. rewrite take_app_length' by done.
  f_equal. apply IH. by injection Hab.
Qed.

Lemma layout_right_half (w2 top bottom : nat) (a b : image) :
  rect w2 a → length a = length b →
  col_slice (Slice (Some (Z.of_nat w2)) None) (layout (w2 + w2) top bottom a b)
  = replicate top (replicate w2 black) ++ b ++ replicate bottom (replicate w2 black).
Proof.
  intros Ha Hab. unfold col_slice, layout.
  rewrite !fmap_app, !fmap_replicate.
  rewrite (py_slice_from (replicate (w2 + w2) black)) by lia.
  rewrite Nat2Z.id, drop_replicate.
  replace (w2 + w2 - w2)%nat with w2 by lia. do 2 f_equal.
  revert b Hab. induction Ha as [|r a Hr _ IH]; intros [|rb b] Hab; try done.
  cbn [zip_with fmap list_fmap].
  rewrite py_slice_from, Nat2Z.id by lia. rewrite drop_app_length' by done.
  f_equal. apply IH. by injection Hab.
Qed.

Lemma layout_shape (w2 top bottom : nat) (a b : image) :
  rect w2 a → rect w2 b → length a = length b →
  length (layout (w2 + w2) top bottom a b) = (top + length a + bottom)%nat ∧
  rect (w2 + w2) (layout (w2 + w2) top bottom a b).
Proof.
  intros Ha Hb Hab. unfold layout. split.
  - rewrite !length_app, !length_replicate, length_zip_with. lia.
  - repeat apply rect_app; try apply rect_replicate.
    clear Hab. revert b Hb. induction Ha as [|r a Hr _ IH]; intros [|rb b] Hb;
      try constructor.
    + rewrite length_app, Hr. by rewrite (Forall_inv Hb).
    + apply IH. by apply Forall_inv_tail in Hb.
Qed.

(** *** The anaglyph branches *)

Lemma shift_right_split (o : nat) (row : list Z) :
  shift_right o row
  = replicate (Nat.min o (length row)) 0 ++ take (length row - o) row.
Proof.
  unfold shift_right. rewrite take_app, take_replicate, length_replicate.
  by rewrite (Nat.min_comm o).
Qed.

(** Lines 319-320 and 343-344: the luminance moved right by [offset]. *)
Lemma shifted_assignment (gray : list (list Z)) (o : Z) (w : nat) :
  0 < o → rect w gray → gray ≠ [] →
  np_setitem (zeros_like 0 gray) (Slice None None) (Slice (Some o) None)
    (col_slice (Slice None (Some (- o))) gray)
  = Ok (shift_right (Z.to_nat o) <$> gray).
Proof.
  intros Ho Hg Hne.
  rewrite (zeros_like_rect 0 w gray) by done.
  set (n := Z.to_nat o).
  assert (rect (w - n) (col_slice (Slice None (Some (- o))) gray)) as Hsrc.
  { unfold col_slice. apply Forall_fmap. eapply Forall_impl; [exact Hg|].
    intros r Hr. unfold compose. cbv beta in Hr |- *.
    rewrite py_slice_to_neg, length_take by done. lia. }
  rewrite (np_setitem_block _ _ _ _ w 0 (Nat.min n w) (length gray) (w - n));
    try done; cycle 1.
  { apply rect_replicate. }
  { destruct gray; done. }
  { by rewrite length_replicate, slice_range_all. }
  { rewrite slice_range_from by lia. f_equal. lia. }
  { apply col_slice_length. }
  { intros Hnil. apply (f_equal length) in Hnil.
    rewrite col_slice_length in Hnil. destruct gray; done. }
  f_equal. rewrite take_0, drop_0, app_nil_l.
  rewrite drop_ge by (rewrite length_replicate; lia). rewrite app_nil_r.
  rewrite take_ge by (rewrite length_replicate; lia).
  rewrite zip_with_replicate_l by (by rewrite col_slice_length).
  unfold col_slice. rewrite <- list_fmap_compose.
  apply Forall_fmap_ext. eapply Forall_impl; [exact Hg|].
  intros r Hr. unfold compose. cbv beta in Hr |- *.
  rewrite shift_right_split, py_slice_to_neg, take_replicate, Hr by done.
  rewrite drop_ge by (rewrite length_replicate; lia). rewrite app_nil_r.
  f_equal. f_equal. lia.
Qed.

Lemma img_map_zip_with {A B C D} (g : C → D) (f : A → B → C)
    (a : list (list A)) (b : list (list B)) :
  img_map g (zip_with (zip_with f) a b) = zip_with (zip_with (λ x y, g (f x y))) a b.
Proof.
  unfold img_map. revert b. induction a as [|ra a IH]; intros [|rb b]; try done.
  cbn. rewrite IH. f_equal. clear. revert rb.
  induction ra as [|x ra IH]; intros [|y rb]; try done. cbn. by rewrite IH.
Qed.

Lemma zip_with_img_map_l {A B C D} (g : D → A) (f : A → B → C)
    (a : list (list D)) (b : list (list B)) :
  zip_with (zip_with f) (img_map g a) b = zip_with (zip_with (λ x y, f (g x) y)) a b.
Proof.
  unfold img_map. revert b. induction a as [|ra a IH]; intros [|rb b]; try done.
  cbn. rewrite IH. f_equal. apply zip_with_fmap_l.
Qed.

Lemma img_map_zeros {A B} (g : A → B) (z : A) (h w : Z) :
  img_map g (zeros z h w) = zeros (g z) h w.
Proof. unfold img_map, zeros. by rewrite !fmap_replicate. Qed.

Lemma img_map_compose {A B C} (g : B → C) (f : A → B) (a : list (list A)) :
  img_map g (img_map f a) = img_map (g ∘ f) a.
Proof.
  unfold img_map. rewrite <- list_fmap_compose. apply list_fmap_ext.
  intros _ r _. cbn. by rewrite <- list_fmap_compose.
Qed.

(** Exchanging red and green commutes with writing a channel, the channel
    index exchanged with it. *)
Lemma swap_rg_set_channel (c c' : nat) (a : image) (g : list (list Z)) :
  (∀ p v, swap_rg (set_ch c p v) = set_ch c' (swap_rg p) v) →
  img_map swap_rg (set_channel c a g) = set_channel c' (img_map swap_rg a) g.
Proof.
  intros Hc. unfold set_channel.
  rewrite img_map_zip_with, zip_with_img_map_l.
  apply zip_with_ext; [|done..]. intros ra rb.
  apply zip_with_ext; [|done..]. intros p v. apply Hc.
Qed.

(** No exception of the transform is an InvalidParamError. *)
Definition never_invalid_param {A} (r : result A) : Prop :=
  ∀ e, r = Raise e → exn_class e ≠ "InvalidParamError".

Lemma never_invalid_param_ok {A} (a : A) : never_invalid_param (Ok a).
Proof. by intros e. Qed.

Lemma never_invalid_param_bind {A B} (r : result A) (k : A → result B) :
  never_invalid_param r → (∀ a, never_invalid_param (k a)) →
  never_invalid_param (r ≫= k).
Proof.
  intros Hr Hk e. destruct r as [a|e0]; cbn.
  - apply Hk.
  - intros [= <-]. by apply Hr.
Qed.

Lemma never_invalid_param_fmap {A B} (r : result A) (f : A → B) :
  never_invalid_param r → never_invalid_param (f <$> r).
Proof. intros Hr e. destruct r as [a|e0]; cbn; [done|]. intros [= <-]. by apply Hr. Qed.

Lemma never_invalid_param_truediv (a b : Z) : never_invalid_param (py_int_truediv a b).
Proof. intros e. unfold py_int_truediv. case_match; by intros [= <-]. Qed.

Lemma never_invalid_param_setitem {A} (dst : list (list A)) rs cs src :
  never_invalid_param (np_setitem dst rs cs src).
Proof.
  intros e. unfold np_setitem. repeat case_match; by intros [= <-].
Qed.

Section Stereo.
Context {cv : Cv2}.

Lemma never_invalid_param_resize (src : image) (d : Z * Z) :
  never_invalid_param (cv2_resize src d).
Proof. intros e. unfold cv2_resize. repeat case_match; by intros [= <-]. Qed.

Lemma never_invalid_param_gray (f : image) : never_invalid_param (cvtColor_RGB2GRAY f).
Proof. intros e. unfold cvtColor_RGB2GRAY. case_match; by intros [= <-]. Qed.

Lemma never_invalid_param_process (mode : string) (o : Z) (f : image) :
  never_invalid_param (process_3d_frame mode o f).
Proof.
  unfold process_3d_frame.
  repeat case_match;
    repeat first
      [ apply never_invalid_param_ok
      | apply never_invalid_param_fmap
      | apply never_invalid_param_truediv
      | apply never_invalid_param_resize
      | apply never_invalid_param_gray
      | apply never_invalid_param_setitem
      | apply never_invalid_param_bind; [|intros ?] ].
Qed.

(** The right-eye plane of both anaglyph branches. *)
Lemma anaglyph_shifted (f : image) (o : Z) :
  0 < o → rectangular f → img_empty f = false →
  let gray := img_map rgb2gray f in
  np_setitem (zeros_like 0 gray) (Slice None None) (Slice (Some o) None)
    (if 0 <? o then col_slice (Slice None (Some (- o))) gray else gray)
  = Ok (shift_right (Z.to_nat o) <$> gray).
Proof.
  intros Ho Hf Hne gray.
  destruct (Z.ltb_spec 0 o); [|lia].
  apply (shifted_assignment gray o (Z.to_nat (img_width f))); [done| |].
  - unfold gray, img_map. apply Forall_fmap. eapply Forall_impl; [exact Hf|].
    intros r Hr. unfold compose. cbv beta in Hr |- *. by rewrite length_fmap.
  - unfold gray, img_map. destruct f; done.
Qed.

(** C4, amended: on a frame of 480 rows and 640 columns, offset 10, the
    cross-eye branch crops to 630 columns, resizes both crops to 320
    columns and int(320·480/630) = 243 rows, and returns a frame of 480 rows
    and 640 columns: 118 black rows, the 243 rows of the two views side by
    side, and 119 black rows. *)
Theorem cross_eye_640x480_offset_10 (frame : image) :
  length frame = 480%nat → rect 640 frame →
  let left_half := col_slice (Slice (Some 10) None) frame in
  let right_half := col_slice (Slice None (Some (- 10))) frame in
  let out := layout 640 118 119 (resize_kernel left_half 320 243)
               (resize_kernel right_half 320 243) in
  rect 630 left_half ∧ rect 630 right_half ∧
  new_height 640 480 10 = 243 ∧
  y_offset 480 243 = 118 ∧
  process_3d_frame "side_by_side_cross_eye" 10 frame = Ok out ∧
  length out = 480%nat ∧ rect 640 out ∧
  take 118 out = replicate 118 (replicate 640 black) ∧
  drop 361 out = replicate 119 (replicate 640 black).
Proof.
  intros Hlen Hrect left_half right_half out.
  assert (frame ≠ []) as Hne by (intros ->; done).
  assert (img_width frame = 640) as HW by (by rewrite (rect_img_width 640)).
  assert (img_height frame = 480) as HH by (unfold img_height; lia).
  assert (rectangular frame) as Hf by (by apply (rectangular_rect 640)).
  pose proof (crop_left_rect frame 10 Hf ltac:(lia)) as HL.
  pose proof (crop_right_rect frame 10 Hf ltac:(lia)) as HR.
  rewrite HW in HL, HR. change (Z.to_nat (640 - 10)) with 630%nat in HL, HR.
  pose proof (resize_kernel_rows left_half 320 243) as Hla.
  pose proof (resize_kernel_rows right_half 320 243) as Hlb.
  pose proof (resize_kernel_cols left_half 320 243) as Hra.
  pose proof (resize_kernel_cols right_half 320 243) as Hrb.
  destruct (layout_shape 320 118 119 _ _ Hra Hrb ltac:(congruence)) as [Hlo Hro].
  change (320 + 320)%nat with 640%nat in Hlo, Hro.
  repeat split; try done.
  - rewrite process_cross_eye, side_by_side_outcome;
      rewrite ?col_slice_length, ?HW, ?HH; try done; lia.
  - fold out in Hlo. rewrite Hlo, Hla. done.
  - unfold out, layout. rewrite app_assoc.
    rewrite drop_app_length'; [done|].
    rewrite length_app, length_replicate, length_zip_with. lia.
Qed.

(** C5: on a rectangular frame and an offset in [10, 100] the two
    side-by-side branches fail together, with the same exception, and where
    they return, the left half of either output is the right half of the
    other, pixel for pixel.  They return whenever the width is even and at
    least twice the offset and the resized height is at least one row. *)
Theorem cross_eye_parallel_halves_swapped (frame : image) (offset : Z) :
  rectangular frame → 10 <= offset <= 100 →
  let W := img_width frame in
  let H0 := img_height frame in
  let cross := process_3d_frame "side_by_side_cross_eye" offset frame in
  let parallel := process_3d_frame "side_by_side_parallel" offset frame in
  (∀ e, cross = Raise e ↔ parallel = Raise e) ∧
  (∀ ce par, cross = Ok ce → parallel = Ok par →
     col_slice (Slice None (Some (W / 2))) ce = col_slice (Slice (Some (W / 2)) None) par ∧
     col_slice (Slice (Some (W / 2)) None) ce = col_slice (Slice None (Some (W / 2))) par ∧
     length ce = length frame ∧ length par = length frame ∧
     rectangular ce ∧ rectangular par ∧
     img_width ce = W ∧ img_width par = W) ∧
  (Z.even W = true → 2 * offset <= W → 1 <= H0 → W - offset <= W / 2 * H0 →
   is_ok cross = true ∧ is_ok parallel = true).
Proof.
  intros Hf [Ho _] W H0 cross parallel. subst cross parallel.
  rewrite process_cross_eye, process_parallel.
  pose proof (crop_left_rect frame offset Hf ltac:(lia)) as HL.
  pose proof (crop_right_rect frame offset Hf ltac:(lia)) as HR.
  rewrite !side_by_side_outcome by (rewrite ?col_slice_length; done).
  fold W H0.
  set (nh := new_height W H0 offset). set (y := y_offset H0 nh).
  set (a := resize_kernel (col_slice (Slice (Some offset) None) frame) _ _).
  set (b := resize_kernel (col_slice (Slice None (Some (- offset))) frame) _ _).
  assert (0 <= W) as HW by apply img_width_nonneg.
  assert (0 <= H0) as HH by (unfold H0, img_height; lia).
  assert (Z.even W = true → 2 * offset <= W → 1 <= H0 → W - offset <= W / 2 * H0 →
          W - offset ≠ 0 ∧ H0 ≠ 0 ∧ 0 <= W - offset ∧ 0 < nh ∧ nh <= H0) as Hgood.
  { intros _ Htwo Hone Hfit.
    assert (W / 2 <= W - offset).
    { pose proof (Z.div_le_upper_bound W 2 (W - offset)). lia. }
    repeat split; try lia; unfold nh, new_height.
    - apply Z.lt_le_trans with 1; [lia|]. apply Z.quot_le_lower_bound; lia.
    - apply Z.quot_le_upper_bound; [lia|]. nia. }
  destruct (Z.eqb_spec (W - offset) 0) as [Hz|Hz].
  { split; [done|split; [done|]]. intros Ha1 Ha2 Ha3 Ha4. exfalso.
    destruct (Hgood Ha1 Ha2 Ha3 Ha4) as (?&?&?&?&?). lia. }
  destruct (Z.eqb_spec H0 0) as [Hh|Hh]; cbn [orb].
  { split; [done|split; [done|]]. intros Ha1 Ha2 Ha3 Ha4. exfalso.
    destruct (Hgood Ha1 Ha2 Ha3 Ha4) as (?&?&?&?&?). lia. }
  destruct (Z.ltb_spec (W - offset) 0) as [Hlt|Hge].
  { split; [done|split; [done|]]. intros Ha1 Ha2 Ha3 Ha4. exfalso.
    destruct (Hgood Ha1 Ha2 Ha3 Ha4) as (?&?&?&?&?). lia. }
  destruct (Z.leb_spec nh 0) as [Hn0|Hn0].
  { split; [done|split; [done|]]. intros Ha1 Ha2 Ha3 Ha4. exfalso.
    destruct (Hgood Ha1 Ha2 Ha3 Ha4) as (?&?&?&?&?). lia. }
  destruct (Z.leb_spec nh H0) as [Hfit|Hbig]; cbn [andb]; cycle 1.
  { split; [done|split; [done|]]. intros Ha1 Ha2 Ha3 Ha4. exfalso.
    destruct (Hgood Ha1 Ha2 Ha3 Ha4) as (?&?&?&?&?). lia. }
  destruct (Z.even W) eqn:Hev; cycle 1.
  { repeat split; done. }
  split; [done|]. split; [|done].
  intros ce par [= <-] [= <-].
  set (w2 := Z.to_nat (W / 2)) in *.
  assert (Z.to_nat W = (w2 + w2)%nat) as ->.
  { apply Zeven_bool_iff, Zeven_div2 in Hev. rewrite Zdiv2_div in Hev. lia. }
  assert (W / 2 = Z.of_nat w2) as -> by (pose proof (Z.div_pos W 2); lia).
  assert (length a = Z.to_nat nh) as Hla by apply resize_kernel_rows.
  assert (length b = Z.to_nat nh) as Hlb by apply resize_kernel_rows.
  assert (rect w2 a) as Hra by apply resize_kernel_cols.
  assert (rect w2 b) as Hrb by apply resize_kernel_cols.
  rewrite !layout_left_half, !layout_right_half by congruence.
  destruct (layout_shape w2 (Z.to_nat y) (Z.to_nat (H0 - y - nh)) a b)
    as [Hl1 Hr1]; [done..|congruence|].
  destruct (layout_shape w2 (Z.to_nat y) (Z.to_nat (H0 - y - nh)) b a)
    as [Hl2 Hr2]; [done..|congruence|].
  assert (0 <= y ∧ y + nh <= H0) as [Hy0 Hy1].
  { unfold y, y_offset. split; [apply Z.div_pos; lia|].
    pose proof (Z.div_le_upper_bound (H0 - nh) 2 (H0 - nh)). lia. }
  assert (W = Z.of_nat (w2 + w2)) as HWw.
  { apply Zeven_bool_iff, Zeven_div2 in Hev. rewrite Zdiv2_div in Hev. lia. }
  assert (∀ x : image, x ≠ [] → rect (w2 + w2) x → img_width x = W) as Hwid.
  { intros x ??. by rewrite (rect_img_width (w2 + w2)). }
  assert (∀ x : image, length x = Z.to_nat H0 → x ≠ []) as Hnonempty.
  { intros x Hx ->. cbn in Hx. lia. }
  repeat split; try done.
  - rewrite Hl1, Hla. unfold H0, img_height in *. lia.
  - rewrite Hl2, Hlb. unfold H0, img_height in *. lia.
  - by apply (rectangular_rect (w2 + w2)).
  - by apply (rectangular_rect (w2 + w2)).
  - apply Hwid; [|done]. apply Hnonempty. rewrite Hl1, Hla. lia.
  - apply Hwid; [|done]. apply Hnonempty. rewrite Hl2, Hlb. lia.
Qed.

(** Both anaglyph branches on a rectangular, non-empty frame and a positive
    offset. *)
Lemma anaglyph_outcome (frame : image) (offset : Z) :
  0 < offset → rectangular frame → img_empty frame = false →
  let gray := img_map rgb2gray frame in
  let shifted := shift_right (Z.to_nat offset) <$> gray in
  let z := zeros black (img_height frame) (img_width frame) in
  process_3d_frame "anaglyph_red_cyan" offset frame
  = Ok (set_channel 2 (set_channel 1 (set_channel 0 z gray) shifted) shifted) ∧
  process_3d_frame "anaglyph_green_magenta" offset frame
  = Ok (set_channel 2 (set_channel 0 (set_channel 1 z gray) shifted) shifted).
Proof.
  intros Ho Hf Hne gray shifted z.
  pose proof (anaglyph_shifted frame offset Ho Hf Hne) as Hs. cbv zeta in Hs.
  unfold process_3d_frame, cvtColor_RGB2GRAY.
  cbn [String.eqb Ascii.eqb Bool.eqb].
  rewrite Hne. cbn [mbind result_mbind result_bind]. rewrite Hs. done.
Qed.

(** C3, amended: the transform checks no range.  No exception it raises is
    an InvalidParamError, and every positive offset, 5 and 150 among them,
    is used as it is: on a rectangular, non-empty frame both anaglyph
    branches return the frame whose right-eye channels are the luminance
    moved right by exactly [offset] columns. *)
Theorem offset_used_unchecked (mode : string) (offset : Z) (frame : image) :
  (∀ e, process_3d_frame mode offset frame = Raise e →
        exn_class e ≠ "InvalidParamError") ∧
  (0 < offset → rectangular frame → img_empty frame = false →
   let gray := img_map rgb2gray frame in
   let shifted := shift_right (Z.to_nat offset) <$> gray in
   let z := zeros black (img_height frame) (img_width frame) in
   process_3d_frame "anaglyph_red_cyan" offset frame
   = Ok (set_channel 2 (set_channel 1 (set_channel 0 z gray) shifted) shifted) ∧
   process_3d_frame "anaglyph_green_magenta" offset frame
   = Ok (set_channel 2 (set_channel 0 (set_channel 1 z gray) shifted) shifted)).
Proof.
  split; [apply never_invalid_param_process|]. apply anaglyph_outcome.
Qed.

(** C6: for an offset in [10, 100] the red-cyan output is the green-magenta
    output with red and green exchanged in every pixel, the two branches
    failing together; the blue planes are equal, the red plane of one is the
    green plane of the other.  Both return on every rectangular, non-empty
    frame. *)
Theorem anaglyph_red_green_swapped (frame : image) (offset : Z) :
  10 <= offset <= 100 →
  let rc := process_3d_frame "anaglyph_red_cyan" offset frame in
  let gm := process_3d_frame "anaglyph_green_magenta" offset frame in
  rc = img_map swap_rg <$> gm ∧
  (∀ a b, rc = Ok a → gm = Ok b →
     img_map ch2 a = img_map ch2 b ∧
     img_map ch0 a = img_map ch1 b ∧
     img_map ch1 a = img_map ch0 b) ∧
  (rectangular frame → img_empty frame = false →
   is_ok rc = true ∧ is_ok gm = true).
Proof.
  intros [Ho _] rc gm.
  assert (rc = img_map swap_rg <$> gm) as Hswap.
  { subst rc gm. unfold process_3d_frame.
    cbn [String.eqb Ascii.eqb Bool.eqb].
    destruct (cvtColor_RGB2GRAY frame) as [gray|e]; [|done].
    cbn [mbind result_mbind result_bind].
    destruct (np_setitem _ _ _ _) as [shifted|e]; [|done].
    cbn [mbind result_mbind result_bind fmap result_fmap result_map]. f_equal.
    rewrite (swap_rg_set_channel 2 2) by done.
    rewrite (swap_rg_set_channel 0 1) by done.
    rewrite (swap_rg_set_channel 1 0) by done.
    by rewrite img_map_zeros. }
  split; [done|]. split.
  - intros a b Ha Hb. rewrite Ha, Hb in Hswap. injection Hswap as ->.
    by rewrite !img_map_compose.
  - intros Hf Hne.
    destruct (anaglyph_outcome frame offset ltac:(lia) Hf Hne) as [Hrc Hgm].
    subst rc gm. by rewrite Hrc, Hgm.
Qed.

End Stereo.

(** C3, as stated, fails: offsets 5 and 150 are not rejected, the red-cyan
    branch returns a frame for either. *)
Lemma offset_5_and_150_accepted :
  is_ok (process_3d_frame (cv:=nearest_cv2) "anaglyph_red_cyan" 5 (ramp 2 8)) = true ∧
  is_ok (process_3d_frame (cv:=nearest_cv2) "anaglyph_red_cyan" 150 (ramp 2 8)) = true ∧
  (∀ e, process_3d_frame (cv:=nearest_cv2) "anaglyph_red_cyan" 5 (ramp 2 8) = Raise e →
        exn_class e = "InvalidParamError" → False).
Proof. vm_compute. repeat split; congruence. Qed.

Lemma ramp_rect (h w : nat) : rect w (ramp h w).
Proof.
  unfold ramp, rect. apply Forall_fmap, Forall_forall. intros r _.
  unfold compose. by rewrite length_fmap, length_seq.
Qed.

Lemma offset_used_unchecked_witness :
  let gray := img_map luminance (ramp 2 8) in
  process_3d_frame (cv:=nearest_cv2) "anaglyph_red_cyan" 150 (ramp 2 8)
  = Ok (set_channel 2
          (set_channel 1 (set_channel 0 (zeros black 2 8) gray)
             (shift_right 150 <$> gray))
          (shift_right 150 <$> gray)).
Proof.
  destruct (offset_used_unchecked (cv:=nearest_cv2) "anaglyph_red_cyan" 150 (ramp 2 8))
    as [_ Hused].
  destruct Hused as [Hrc _].
  - reflexivity.
  - apply (rectangular_rect 8), ramp_rect.
  - reflexivity.
  - exact Hrc.
Defined.

(** C4, as stated, fails: below the 243 rows of content the output has 119
    black rows, not 118. *)
Lemma cross_eye_bottom_margin_119 :
  let r := process_3d_frame (cv:=nearest_cv2) "side_by_side_cross_eye" 10
             white_640x480 in
  (λ out, (top_margin out, bottom_margin out)) <$> r = Ok (118%nat, 119%nat) ∧
  bottom_margin <$> r ≠ Ok 118%nat.
Proof.
  cbv zeta.
  assert ((λ out, (top_margin out, bottom_margin out)) <$>
            process_3d_frame (cv:=nearest_cv2) "side_by_side_cross_eye" 10 white_640x480
          = Ok (118%nat, 119%nat)) as Hm by (vm_compute; reflexivity).
  split; [exact Hm|].
  destruct (process_3d_frame "side_by_side_cross_eye" 10 white_640x480) as [out|e];
    [|discriminate].
  cbn in Hm |- *. injection Hm as _ ->. discriminate.
Qed.

Lemma cross_eye_640x480_offset_10_witness :
  let out := layout 640 118 119
               (nearest_resize (col_slice (Slice (Some 10) None) white_640x480) 320 243)
               (nearest_resize (col_slice (Slice None (Some (- 10))) white_640x480) 320 243) in
  process_3d_frame (cv:=nearest_cv2) "side_by_side_cross_eye" 10 white_640x480 = Ok out ∧
  length out = 480%nat.
Proof.
  destruct (cross_eye_640x480_offset_10 (cv:=nearest_cv2) white_640x480)
    as (_ & _ & _ & _ & Hout & Hlen & _).
  - apply length_replicate.
  - apply rect_replicate.
  - split; [exact Hout|exact Hlen].
Defined.

Lemma cross_eye_parallel_halves_swapped_witness :
  ∃ ce par,
    process_3d_frame (cv:=nearest_cv2) "side_by_side_cross_eye" 10 (ramp 4 24) = Ok ce ∧
    process_3d_frame (cv:=nearest_cv2) "side_by_side_parallel" 10 (ramp 4 24) = Ok par ∧
    col_slice (Slice None (Some 12)) ce = col_slice (Slice (Some 12) None) par ∧
    col_slice (Slice (Some 12) None) ce = col_slice (Slice None (Some 12)) par.
Proof.
  destruct (cross_eye_parallel_halves_swapped (cv:=nearest_cv2) (ramp 4 24) 10)
    as (_ & Hhalves & Hok).
  - apply (rectangular_rect 24), ramp_rect.
  - lia.
  - destruct Hok as [Hce Hpar];
      [reflexivity|vm_compute; discriminate|vm_compute; discriminate
      |vm_compute; discriminate|].
    destruct (process_3d_frame "side_by_side_cross_eye" 10 (ramp 4 24)) as [ce|] eqn:Ece;
      [|discriminate].
    destruct (process_3d_frame "side_by_side_parallel" 10 (ramp 4 24)) as [par|] eqn:Epar;
      [|discriminate].
    exists ce, par. destruct (Hhalves ce par eq_refl eq_refl) as (Hl & Hr & _).
    repeat split; [exact Hl|exact Hr].
Defined.

Lemma anaglyph_red_green_swapped_witness :
  process_3d_frame (cv:=nearest_cv2) "anaglyph_red_cyan" 10 (ramp 2 24)
  = img_map swap_rg
      <$> process_3d_frame (cv:=nearest_cv2) "anaglyph_green_magenta" 10 (ramp 2 24).
Proof.
  destruct (anaglyph_red_green_swapped (cv:=nearest_cv2) (ramp 2 24) 10) as [Hswap _].
  - lia.
  - exact Hswap.
Defined.

End ReceiverProofs.

Module SignalingProofs.
Import Publisher Signaling Samples.


Section Offer.
Context {PC : Type} {engine : Engine PC}.
Variable open_capture : string → VideoCapture.


End Offer.


End SignalingProofs.

(** ** Further properties of the track *)
Module PublisherMore.
Import Publisher Samples Pacing PublisherProofs.

Lemma py_int_mono (p q : Q) : (p <= q)%Q → py_int p <= py_int q.
Proof.
  intros Hpq.
  assert (∀ r : Q, (r < 0)%Q → py_int r = - Qfloor (- r)) as Hneg.
  { intros [n d] Hr. unfold Qlt in Hr. simpl in Hr.
    unfold py_int, Qfloor, Qopp. simpl.
    rewrite <- Z.quot_div_nonneg by lia. rewrite Z.quot_opp_l by lia. lia. }
  assert (∀ r : Q, (r < 0)%Q → py_int r <= 0) as Hnp.
  { intros r Hr. rewrite Hneg by done.
    assert (0 <= Qfloor (- r)); [|lia].
    change 0 with (Qfloor 0). apply Qfloor_resp_le.
    apply Qlt_le_weak. by apply (Qopp_lt_compat r 0). }
  destruct (Qlt_le_dec p 0) as [Hp|Hp]; destruct (Qlt_le_dec q 0) as [Hq|Hq].
  - rewrite !Hneg by done.
    assert (Qfloor (- q) <= Qfloor (- p)); [|lia].
    apply Qfloor_resp_le. by apply Qopp_le_compat.
  - rewrite (py_int_floor_nonneg q) by done.
    assert (0 <= Qfloor q) by (change 0 with (Qfloor 0); by apply Qfloor_resp_le).
    specialize (Hnp p Hp). lia.
  - exfalso. apply (Qlt_irrefl 0).
    eapply Qle_lt_trans; [exact Hp|]. eapply Qle_lt_trans; [exact Hpq|done].
  - rewrite !py_int_floor_nonneg by done. by apply Qfloor_resp_le.
Qed.

Section Pace.
Variable clock : nat → Q.

Lemma elapsed_eq (s : state) :
  elapsed clock s = (clock (now_tick s) - start_in_force clock s)%Q.
Proof. unfold elapsed, now_tick, start_in_force. by destruct (start_time (self s)). Qed.

(** What a call of [recv] does to the pacing state, by the branch taken. *)
Lemma recv_pacing_cases (s : state) :
  let raw := py_int (elapsed clock s * fps (self s)) in
  let post := (recv clock s).1.2 in
  if frame_count (self s) <=? raw
  then target_index clock s = 0 ∧
       start_time (self post) = Some (clock (S (now_tick s))) ∧
       ticks post = S (S (now_tick s))
  else target_index clock s = raw ∧
       start_time (self post) = Some (start_in_force clock s) ∧
       ticks post = S (now_tick s).
Proof.
  destruct s as [[vp c f w h fc fd st fi kd] k].
  unfold target_index, elapsed, now_tick, start_in_force. unfold_recv.
  destruct st as [t0|]; cbn.
  - generalize (py_int ((clock k - t0) * f)). intros tgt.
    destruct (fc <=? tgt); cbn; repeat branch; done.
  - generalize (py_int ((clock (S k) - clock k) * f)). intros tgt.
    destruct (fc <=? tgt); cbn; repeat branch; done.
Qed.

(** X1: [recv] emits the frame decoded at the selected index or, when that
    fails, the frame decoded at 0, with its channels 0 and 2 exchanged; it
    raises, and then always a cv2.error, exactly when the frame so chosen is
    missing or empty. *)
Theorem recv_emits_or_cv2_error (s : state) :
  let frames := cap_frames (cap (self s)) in
  let target := target_index clock s in
  let chosen := match frames target with Some f => Some f | None => frames 0 end in
  match chosen with
  | Some f =>
      if img_empty f
      then ∃ e, (recv clock s).1.1 = Raise e ∧ exn_class e = "cv2.error"
      else ∃ fr, (recv clock s).1.1 = Ok fr ∧ vf_data fr = img_map bgr2rgb f
  | None => ∃ e, (recv clock s).1.1 = Raise e ∧ exn_class e = "cv2.error"
  end.
Proof.
  destruct s as [[vp c f w h fc fd st fi kd] k].
  unfold target_index. unfold_recv.
  destruct st as [t0|]; cbn.
  - generalize (py_int ((clock k - t0) * f)). intros tgt.
    destruct (fc <=? tgt); cbn; repeat branch; try congruence; eexists; split; reflexivity.
  - generalize (py_int ((clock (S k) - clock k) * f)). intros tgt.
    destruct (fc <=? tgt); cbn; repeat branch; try congruence; eexists; split; reflexivity.
Qed.

(** The timestamp of a frame is a monotone function of the index it was
    selected for. *)
Lemma pts_mono (fd : Q) (i j : Z) :
  (0 <= fd)%Q → i <= j →
  py_int (inject_Z i * fd * 90000) <= py_int (inject_Z j * fd * 90000).
Proof.
  intros Hfd Hij. apply py_int_mono.
  apply Qmult_le_compat_r; [|done]. apply Qmult_le_compat_r; [|done].
  by rewrite <- Zle_Qle.
Qed.

(** X2: with a clock that never runs backwards and a frame rate that is not
    negative, a call that loops selects index 0, and a call that does not
    loop selects an index no smaller than the call before it; the emitted
    timestamps follow: 0 on a loop, otherwise non-decreasing. *)
Theorem recv_pts_monotone_within_cycle (s : state) :
  (∀ n, clock n <= clock (S n))%Q →
  (0 <= fps (self s))%Q → (0 <= frame_duration (self s))%Q →
  0 < frame_count (self s) →
  let c1 := recv clock s in
  let c2 := recv clock c1.1.2 in
  (loop_reset c1.2 = true →
   target_index clock s = 0 ∧ ∀ fr, c1.1.1 = Ok fr → vf_pts fr = 0) ∧
  (loop_reset c2.2 = false →
   target_index clock s <= target_index clock c1.1.2 ∧
   ∀ fr1 fr2, c1.1.1 = Ok fr1 → c2.1.1 = Ok fr2 → vf_pts fr1 <= vf_pts fr2).
Proof.
  intros Hclock Hfps Hfd Hfc c1 c2.
  pose proof (recv_keeps_metadata clock s) as (Hm1 & Hm2 & Hm3 & _).
  fold c1 in Hm1, Hm2, Hm3. cbv zeta in Hm1, Hm2, Hm3.
  pose proof (recv_call_in_range clock s Hfc) as (_ & _ & Hl1).
  pose proof (recv_call_in_range clock c1.1.2 ltac:(by rewrite Hm1)) as (_ & _ & Hl2).
  cbv zeta in Hl1, Hl2. fold c1 in Hl1. fold c2 in Hl2.
  rewrite <- py_int_ge_floor in Hl1 by done.
  rewrite <- py_int_ge_floor in Hl2 by (by rewrite Hm1).
  pose proof (recv_pacing_cases s) as Hp1. cbv zeta in Hp1. fold c1 in Hp1.
  pose proof (recv_pacing_cases c1.1.2) as Hp2. cbv zeta in Hp2. fold c2 in Hp2.
  split.
  - intros Hloop. apply Hl1 in Hloop.
    destruct (Z.leb_spec (frame_count (self s)) (py_int (elapsed clock s * fps (self s))));
      [|lia].
    destruct Hp1 as (Ht & _). split; [done|].
    intros fr Hfr. apply recv_stamp in Hfr as [-> _]. by rewrite Ht.
  - intros Hnoloop.
    assert (target_index clock s <= target_index clock c1.1.2) as Hle.
    { destruct (Z.leb_spec (frame_count (self c1.1.2))
                  (py_int (elapsed clock c1.1.2 * fps (self c1.1.2)))) as [Hge|Hlt].
      { apply Hl2 in Hge. congruence. }
      destruct Hp2 as (-> & _).
      rewrite elapsed_eq. unfold now_tick, start_in_force. rewrite Hm2.
      destruct (Z.leb_spec (frame_count (self s))
                  (py_int (elapsed clock s * fps (self s)))) as [Hge1|Hlt1].
      - destruct Hp1 as (-> & -> & ->).
        change 0 with (py_int 0). apply py_int_mono.
        apply Qmult_le_0_compat; [|done].
        rewrite <- (Qplus_opp_r (clock (S (now_tick s)))).
        apply Qplus_le_l, Hclock.
      - destruct Hp1 as (-> & -> & ->). rewrite elapsed_eq.
        apply py_int_mono. apply Qmult_le_compat_r; [|done].
        apply Qplus_le_l, Hclock. }
    split; [done|]. intros fr1 fr2 H1 H2.
    apply recv_stamp in H1 as [-> _]. apply recv_stamp in H2 as [-> _].
    rewrite Hm3. by apply pts_mono.
Qed.

(** X3: after any call the start time is set; a call that does not loop
    leaves it at the start time in force when the call began, which on the
    first call is the first clock reading of that call. *)
Theorem recv_start_time_fixed_until_loop (n : nat) (s : state) :
  Forall (λ c,
    is_Some (start_time (self (call_post c))) ∧
    (loop_reset (call_events c) = false →
     start_time (self (call_post c)) = Some (start_in_force clock (call_pre c)) ∧
     ticks (call_post c) = S (now_tick (call_pre c))))
    (run clock n s).
Proof.
  eapply Forall_impl; [apply run_metadata|].
  intros c (_ & _ & _ & _ & _ & -> & ->). clear.
  destruct (call_pre c) as [[vp cp f w h fc fd st fi kd] k].
  unfold now_tick, start_in_force. unfold_recv.
  destruct st as [t0|]; cbn.
  - generalize (py_int ((clock k - t0) * f)). intros tgt.
    destruct (fc <=? tgt); cbn; repeat branch; split; try done;
      destruct tgt; done.
  - generalize (py_int ((clock (S k) - clock k) * f)). intros tgt.
    destruct (fc <=? tgt); cbn; repeat branch; split; try done;
      destruct tgt; done.
Qed.

Lemma recv_keeps_start_past (s : state) :
  start_is_past_reading clock s → start_is_past_reading clock (recv clock s).1.2.
Proof.
  intros Hs. pose proof (recv_pacing_cases s) as Hc. cbv zeta in Hc.
  unfold start_is_past_reading in *.
  destruct (frame_count (self s) <=? _); destruct Hc as (_ & -> & ->).
  - exists (S (now_tick s)). split; [lia|done].
  - unfold start_in_force, now_tick. destruct (start_time (self s)) as [t0|].
    + destruct Hs as (k & Hk & ->). exists k. split; [lia|done].
    + exists (ticks s). split; [lia|done].
Qed.

Lemma clock_mono_le (j k : nat) :
  (∀ n, clock n <= clock (S n))%Q → (j <= k)%nat → (clock j <= clock k)%Q.
Proof.
  intros Hclock. induction 1 as [|k _ IH]; [apply Qle_refl|].
  eapply Qle_trans; [exact IH|apply Hclock].
Qed.

Lemma recv_target_in_range (s : state) :
  (∀ n, clock n <= clock (S n))%Q → (0 <= fps (self s))%Q →
  0 < frame_count (self s) → start_is_past_reading clock s →
  0 <= target_index clock s < frame_count (self s).
Proof.
  intros Hclock Hfps Hfc Hs.
  pose proof (recv_pacing_cases s) as Hc. cbv zeta in Hc.
  destruct (Z.leb_spec (frame_count (self s)) (py_int (elapsed clock s * fps (self s))))
    as [Hge|Hlt]; destruct Hc as (-> & _); [lia|]. split; [|done].
  change 0 with (py_int 0). apply py_int_mono.
  apply Qmult_le_0_compat; [|done]. rewrite elapsed_eq.
  assert (start_in_force clock s <= clock (now_tick s))%Q as Hle.
  { unfold start_in_force, now_tick, start_is_past_reading in *.
    destruct (start_time (self s)) as [t0|].
    - destruct Hs as (k & Hk & ->). apply clock_mono_le; [done|lia].
    - apply Hclock. }
  rewrite <- (Qplus_opp_r (start_in_force clock s)). by apply Qplus_le_l.
Qed.

(** X18: on a track whose pacing has not started, read with a clock that
    never runs backwards, a frame rate that is not negative and at least one
    frame announced, every call selects an index from 0 up to, and not
    including, the frame count. *)
Theorem run_target_in_range (n : nat) (s : state) :
  (∀ k, clock k <= clock (S k))%Q → (0 <= fps (self s))%Q →
  0 < frame_count (self s) → start_time (self s) = None →
  Forall (λ c, 0 <= target_index clock (call_pre c) < frame_count (self s))
    (run clock n s).
Proof.
  intros Hclock Hfps Hfc Hnone.
  assert (start_is_past_reading clock s) as Hs by (unfold start_is_past_reading; by rewrite Hnone).
  clear Hnone. revert s Hfps Hfc Hs.
  induction n as [|n IH]; intros s Hfps Hfc Hs; cbn [run]; [constructor|].
  pose proof (recv_keeps_metadata clock s) as (Hm1 & Hm2 & _).
  pose proof (recv_keeps_start_past s Hs) as Hs'.
  destruct (recv clock s) as [[r s'] l] eqn:Hr. cbn [fst snd] in *.
  constructor.
  - cbn. by apply recv_target_in_range.
  - rewrite <- Hm1. apply IH; [by rewrite Hm2|by rewrite Hm1|done].
Qed.

End Pace.



Lemma late_clock_mono (n : nat) : (late_clock n <= late_clock (S n))%Q.
Proof. destruct n as [|[|[|n]]]; by vm_compute. Qed.

Lemma run_target_in_range_witness :
  Forall (λ c, 0 <= target_index late_clock (call_pre c) < frame_count (self sample_state))
    (run late_clock 3 sample_state).
Proof.
  apply (run_target_in_range late_clock 3 sample_state).
  - exact late_clock_mono.
  - by vm_compute.
  - reflexivity.
  - reflexivity.
Defined.

Lemma recv_start_time_fixed_until_loop_witness :
  Forall (λ c,
    is_Some (start_time (self (call_post c))) ∧
    (loop_reset (call_events c) = false →
     start_time (self (call_post c)) = Some (start_in_force sample_clock (call_pre c)) ∧
     ticks (call_post c) = S (now_tick (call_pre c))))
    (run sample_clock 2 sample_state).
Proof. apply (recv_start_time_fixed_until_loop sample_clock 2 sample_state). Defined.

Lemma recv_pts_monotone_within_cycle_witness :
  let c1 := recv late_clock sample_state in
  loop_reset c1.2 = true ∧ target_index late_clock sample_state = 0 ∧
  ∀ fr, c1.1.1 = Ok fr → vf_pts fr = 0.
Proof.
  destruct (recv_pts_monotone_within_cycle late_clock sample_state)
    as [Hloop _].
  - exact late_clock_mono.
  - by vm_compute.
  - by vm_compute.
  - reflexivity.
  - cbv zeta. split; [reflexivity|]. apply Hloop. reflexivity.
Defined.

End PublisherMore.

(** ** Further properties of the stereo transform *)
Module ReceiverMore.
Import Receiver Samples Display ReceiverProofs.

Section Transform.
Context {cv : Cv2}.

(** X5: on a rectangular frame and an offset of at least 10, either
    side-by-side branch returns exactly when the width is even and exceeds
    the offset, the frame has a row, and the resized height lies between 1
    and the frame height.  Otherwise it raises: ZeroDivisionError when the
    offset equals the width, cv2.error when the crop is empty or the resized
    height is 0, ValueError when the resized views do not fit the halves. *)
Theorem side_by_side_returns_iff (mode : string) (frame : image) (offset : Z) :
  mode = "side_by_side_cross_eye" ∨ mode = "side_by_side_parallel" →
  rectangular frame → 10 <= offset →
  let W := img_width frame in
  let H0 := img_height frame in
  let nh := new_height W H0 offset in
  let r := process_3d_frame mode offset frame in
  (is_ok r = true ↔
   Z.even W = true ∧ offset < W ∧ 1 <= H0 ∧ 1 <= nh ∧ nh <= H0) ∧
  (W = offset → r = Raise (ZeroDivisionError "division by zero")) ∧
  (W < offset ∨ H0 = 0 → r = Raise (cv2_error "!ssize.empty() in function 'resize'")) ∧
  (offset < W → 1 <= H0 → nh <= 0 →
   r = Raise (cv2_error "!dsize.empty() in function 'resize'")) ∧
  (offset < W → 1 <= H0 → 1 <= nh → H0 < nh ∨ Z.even W = false →
   r = Raise (ValueError "could not broadcast input array")).
Proof.
  intros Hmode Hf Ho W H0 nh r.
  pose proof (crop_left_rect frame offset Hf ltac:(lia)) as HL.
  pose proof (crop_right_rect frame offset Hf ltac:(lia)) as HR.
  assert (r = if W - offset =? 0 then Raise (ZeroDivisionError "division by zero")
              else if (H0 =? 0) || (W - offset <? 0)
              then Raise (cv2_error "!ssize.empty() in function 'resize'")
              else if nh <=? 0
              then Raise (cv2_error "!dsize.empty() in function 'resize'")
              else if (nh <=? H0) && Z.even W
              then Ok (layout (Z.to_nat W) (Z.to_nat (y_offset H0 nh))
                         (Z.to_nat (H0 - y_offset H0 nh - nh))
                         (resize_kernel
                            (if String.eqb mode "side_by_side_cross_eye"
                             then col_slice (Slice (Some offset) None) frame
                             else col_slice (Slice None (Some (- offset))) frame)
                            (Z.to_nat (W / 2)) (Z.to_nat nh))
                         (resize_kernel
                            (if String.eqb mode "side_by_side_cross_eye"
                             then col_slice (Slice None (Some (- offset))) frame
                             else col_slice (Slice (Some offset) None) frame)
                            (Z.to_nat (W / 2)) (Z.to_nat nh)))
              else Raise (ValueError "could not broadcast input array")) as ->.
  { subst r. destruct Hmode as [-> | ->].
    - rewrite process_cross_eye, side_by_side_outcome
        by (rewrite ?col_slice_length; done). done.
    - rewrite process_parallel, side_by_side_outcome
        by (rewrite ?col_slice_length; done). done. }
  assert (0 <= W) as HW by apply img_width_nonneg.
  assert (0 <= H0) as HH by (unfold H0, img_height; lia).
  assert (H0 = 0 → W = 0) as Hempty.
  { unfold H0, W, img_height. destruct frame; [done|cbn; lia]. }
  destruct (Z.eqb_spec (W - offset) 0);
    [repeat split; intros; try done; try lia|].
  destruct (Z.eqb_spec H0 0); cbn [orb];
    [repeat split; intros; try done; try lia|].
  destruct (Z.ltb_spec (W - offset) 0);
    [repeat split; intros; try done; try lia|].
  destruct (Z.leb_spec nh 0);
    [repeat split; intros; try done; try lia|].
  destruct (Z.leb_spec nh H0); cbn [andb];
    [|repeat split; intros; try done; try lia].
  destruct (Z.even W) eqn:Hev;
    repeat split; intros; try done; try lia.
  all: try (destruct_or!; try done; lia).
Qed.

(** X19: where a side-by-side branch returns, its output is the resized
    crops side by side between black margins: [y_offset] rows above, the
    rest below, which is as many rows or one more.  The cross-eye branch
    puts the crop trimmed on the left into the left half, the parallel
    branch the crop trimmed on the right. *)
Theorem side_by_side_layout (frame : image) (offset : Z) :
  rectangular frame → 10 <= offset →
  let W := img_width frame in
  let H0 := img_height frame in
  let nh := new_height W H0 offset in
  let y := y_offset H0 nh in
  let bottom := H0 - y - nh in
  let trimmed_left :=
    resize_kernel (col_slice (Slice (Some offset) None) frame)
      (Z.to_nat (W / 2)) (Z.to_nat nh) in
  let trimmed_right :=
    resize_kernel (col_slice (Slice None (Some (- offset))) frame)
      (Z.to_nat (W / 2)) (Z.to_nat nh) in
  Z.even W = true → offset < W → 1 <= nh <= H0 →
  process_3d_frame "side_by_side_cross_eye" offset frame
  = Ok (layout (Z.to_nat W) (Z.to_nat y) (Z.to_nat bottom) trimmed_left trimmed_right) ∧
  process_3d_frame "side_by_side_parallel" offset frame
  = Ok (layout (Z.to_nat W) (Z.to_nat y) (Z.to_nat bottom) trimmed_right trimmed_left) ∧
  0 <= y ∧ y <= bottom <= y + 1 ∧ y + nh + bottom = H0.
Proof.
  intros Hf Ho W H0 nh y bottom tl tr Hev Hlt [Hnh1 Hnh2].
  pose proof (crop_left_rect frame offset Hf ltac:(lia)) as HL.
  pose proof (crop_right_rect frame offset Hf ltac:(lia)) as HR.
  rewrite process_cross_eye, process_parallel.
  rewrite !side_by_side_outcome by (rewrite ?col_slice_length; done).
  fold W H0 nh y.
  destruct (Z.eqb_spec (W - offset) 0); [lia|].
  destruct (Z.eqb_spec H0 0); [lia|]. cbn [orb].
  destruct (Z.ltb_spec (W - offset) 0); [lia|].
  destruct (Z.leb_spec nh 0); [lia|].
  destruct (Z.leb_spec nh H0); [|lia]. rewrite Hev. cbn [andb].
  split; [done|]. split; [done|].
  unfold bottom, y, y_offset.
  pose proof (Z.div_mod (H0 - nh) 2 ltac:(lia)).
  pose proof (Z.mod_pos_bound (H0 - nh) 2 ltac:(lia)).
  assert (0 <= (H0 - nh) / 2) by (apply Z.div_pos; lia). lia.
Qed.

Lemma bind_fails_now {A B} (m : result A) (k : A → result B) :
  is_ok m = false → is_ok (m ≫= k) = false.
Proof. by destruct m. Qed.

Lemma bind_fails_later {A B} (m : result A) (k : A → result B) :
  (∀ a, is_ok (k a) = false) → is_ok (m ≫= k) = false.
Proof. intros Hk. destruct m; [apply Hk|done]. Qed.

Lemma empty_crop_not_resized (src : image) (d : Z * Z) :
  img_empty src = true → is_ok (cv2_resize src d) = false.
Proof. intros He. unfold cv2_resize. destruct d. by rewrite He. Qed.

Lemma slice_to_zero_empty (frame : image) :
  img_empty (col_slice (Slice None (Some 0)) frame) = true.
Proof.
  unfold img_empty, img_height, img_width, col_slice.
  destruct frame as [|r f]; [done|]. cbn [fmap list_fmap].
  rewrite py_slice_to by done. by rewrite take_0.
Qed.

(** X6: at offset 0 neither side-by-side branch returns, whatever the
    frame: the crop [frame[:, :-0]] is empty. *)
Theorem side_by_side_offset_0_fails (frame : image) :
  is_ok (process_3d_frame "side_by_side_cross_eye" 0 frame) = false ∧
  is_ok (process_3d_frame "side_by_side_parallel" 0 frame) = false.
Proof.
  split.
  - rewrite process_cross_eye. unfold side_by_side.
    do 3 (apply bind_fails_later; intros ?).
    apply bind_fails_later; intros nh. apply bind_fails_now.
    apply empty_crop_not_resized, slice_to_zero_empty.
  - rewrite process_parallel. unfold side_by_side.
    apply bind_fails_later; intros nh. apply bind_fails_now.
    apply empty_crop_not_resized, slice_to_zero_empty.
Qed.

End Transform.

(** *** Reading single pixels *)

Lemma pixel_at_set_channel (c : nat) (a : image) (g : list (list Z)) (i j : nat) :
  pixel_at (set_channel c a g) i j
  = (p ← pixel_at a i j; v ← pixel_at g i j; Some (set_ch c p v)).
Proof.
  unfold pixel_at, set_channel. rewrite lookup_zip_with.
  destruct (a !! i) as [ra|]; [|done]. cbn.
  destruct (g !! i) as [rg|]; cbn.
  - rewrite lookup_zip_with. by destruct (ra !! j).
  - by destruct (ra !! j).
Qed.

Lemma pixel_at_zeros {B} (z : B) (h w : Z) (i j : nat) :
  (i < Z.to_nat h)%nat → (j < Z.to_nat w)%nat → pixel_at (zeros z h w) i j = Some z.
Proof.
  intros Hi Hj. unfold pixel_at, zeros.
  rewrite lookup_replicate_2 by done. cbn. by rewrite lookup_replicate_2.
Qed.

Lemma pixel_at_img_map {A B} (f : A → B) (a : list (list A)) (i j : nat) :
  pixel_at (img_map f a) i j = f <$> pixel_at a i j.
Proof.
  unfold pixel_at, img_map. rewrite list_lookup_fmap.
  destruct (a !! i) as [r|]; [|done]. cbn. by rewrite list_lookup_fmap.
Qed.

Lemma shift_right_lookup (o : nat) (row : list Z) (j : nat) :
  (j < length row)%nat →
  shift_right o row !! j = Some (if (j <? o)%nat then 0 else default 0 (row !! (j - o)%nat)).
Proof.
  intros Hj. unfold shift_right. rewrite lookup_take_lt by done.
  destruct (Nat.ltb_spec j o) as [Hlt|Hge].
  - rewrite lookup_app_l by (by rewrite length_replicate).
    by rewrite lookup_replicate_2.
  - rewrite lookup_app_r by (by rewrite length_replicate).
    rewrite length_replicate.
    destruct (lookup_lt_is_Some_2 row (j - o)) as [v Hv]; [lia|].
    by rewrite Hv.
Qed.

Section Anaglyph.
Context {cv : Cv2}.

(** Lines 319-320 and 343-344 at offset 0: the luminance itself. *)
Lemma unshifted_assignment (gray : list (list Z)) (w : nat) :
  rect w gray → gray ≠ [] →
  np_setitem (zeros_like 0 gray) (Slice None None) (Slice (Some 0) None) gray
  = Ok gray.
Proof.
  intros Hg Hne. rewrite (zeros_like_rect 0 w gray) by done.
  rewrite (np_setitem_block _ _ _ _ w 0 0 (length gray) w); try done; cycle 1.
  { apply rect_replicate. }
  { destruct gray; done. }
  { by rewrite length_replicate, slice_range_all. }
  { by rewrite slice_range_from by lia. }
  f_equal. rewrite take_0, drop_0, app_nil_l.
  rewrite drop_ge by (rewrite length_replicate; lia). rewrite app_nil_r.
  rewrite take_ge by (rewrite length_replicate; lia).
  rewrite zip_with_replicate_l by done.
  rewrite <- (list_fmap_id gray) at 2.
  apply Forall_fmap_ext. eapply Forall_impl; [exact Hg|].
  intros r Hr. cbv beta in Hr |- *.
  rewrite take_0, app_nil_l, drop_ge by (rewrite length_replicate; lia).
  by rewrite app_nil_r.
Qed.

Lemma shift_right_0 (gray : list (list Z)) : shift_right 0 <$> gray = gray.
Proof.
  rewrite <- (list_fmap_id gray) at 2. apply list_fmap_ext. intros _ r _.
  unfold shift_right. cbn. by rewrite take_ge.
Qed.

Lemma gray_shape (f : image) :
  rectangular f → img_empty f = false →
  rect (Z.to_nat (img_width f)) (img_map rgb2gray f) ∧ img_map rgb2gray f ≠ [].
Proof.
  intros Hf Hne. split.
  - unfold img_map. apply Forall_fmap. eapply Forall_impl; [exact Hf|].
    intros r Hr. unfold compose. cbv beta in Hr |- *. by rewrite length_fmap.
  - unfold img_map. destruct f; done.
Qed.

(** Both anaglyph branches on a rectangular, non-empty frame and an offset
    that is not negative. *)
Lemma anaglyph_outcome_nonneg (frame : image) (offset : Z) :
  0 <= offset → rectangular frame → img_empty frame = false →
  let gray := img_map rgb2gray frame in
  let shifted := shift_right (Z.to_nat offset) <$> gray in
  let z := zeros black (img_height frame) (img_width frame) in
  process_3d_frame "anaglyph_red_cyan" offset frame
  = Ok (set_channel 2 (set_channel 1 (set_channel 0 z gray) shifted) shifted) ∧
  process_3d_frame "anaglyph_green_magenta" offset frame
  = Ok (set_channel 2 (set_channel 0 (set_channel 1 z gray) shifted) shifted).
Proof.
  intros Ho Hf Hne gray shifted z.
  destruct (Z.eq_dec offset 0) as [->|Hnz].
  - destruct (gray_shape frame Hf Hne) as [Hg Hgne].
    pose proof (unshifted_assignment _ _ Hg Hgne) as Hs.
    subst shifted. change (Z.to_nat 0) with 0%nat. rewrite shift_right_0.
    unfold process_3d_frame, cvtColor_RGB2GRAY.
    cbn [String.eqb Ascii.eqb Bool.eqb].
    rewrite Hne. cbn [mbind result_mbind result_bind].
    change (0 <? 0) with false. cbv iota. unfold gray. rewrite Hs. done.
  - apply anaglyph_outcome; [lia|done..].
Qed.

(** X7: for an offset that is not negative, each pixel of the red-cyan
    output holds the luminance of its own pixel in red and, in green and
    blue, the luminance of the pixel [offset] columns to its left, or 0 in
    the first [offset] columns; the green-magenta output holds the same two
    values with red and green exchanged.  At offset 0 all three channels
    carry the pixel's own luminance. *)
Theorem anaglyph_pixels (frame : image) (offset : Z) (i j : nat) (p : pixel) :
  0 <= offset → rectangular frame →
  pixel_at frame i j = Some p →
  let o := Z.to_nat offset in
  let left := rgb2gray p in
  let right := if (j <? o)%nat then 0
               else default 0 (rgb2gray <$> pixel_at frame i (j - o)) in
  ∃ rc gm,
    process_3d_frame "anaglyph_red_cyan" offset frame = Ok rc ∧
    process_3d_frame "anaglyph_green_magenta" offset frame = Ok gm ∧
    pixel_at rc i j = Some (Px left right right) ∧
    pixel_at gm i j = Some (Px right left right).
Proof.
  intros Ho Hf Hp o left right.
  assert (∃ row, frame !! i = Some row ∧ row !! j = Some p) as (row & Hrow & Hpj).
  { unfold pixel_at in Hp. destruct (frame !! i) as [row|]; [|done]. by exists row. }
  assert (length row = Z.to_nat (img_width frame)) as Hlen.
  { unfold rectangular, rect in Hf. rewrite Forall_forall in Hf.
    apply Hf. by eapply list_elem_of_lookup_2. }
  assert (j < length row)%nat as Hj by (by eapply lookup_lt_Some).
  assert (i < length frame)%nat as Hi by (by eapply lookup_lt_Some).
  assert (img_empty frame = false) as Hne.
  { rewrite (rect_img_empty _ frame Hf). apply bool_decide_eq_false. lia. }
  destruct (anaglyph_outcome_nonneg frame offset Ho Hf Hne) as [Hrc Hgm].
  cbv zeta in Hrc, Hgm. do 2 eexists. split; [exact Hrc|]. split; [exact Hgm|].
  assert (pixel_at (zeros black (img_height frame) (img_width frame)) i j = Some black)
    as Hz.
  { apply pixel_at_zeros; unfold img_height; lia. }
  assert (pixel_at (img_map rgb2gray frame) i j = Some left) as Hg.
  { by rewrite pixel_at_img_map, Hp. }
  assert (pixel_at (shift_right o <$> img_map rgb2gray frame) i j = Some right) as Hs.
  { unfold pixel_at. rewrite list_lookup_fmap. unfold img_map at 1.
    rewrite list_lookup_fmap, Hrow.
    cbn [fmap option_fmap option_map mbind option_bind].
    rewrite shift_right_lookup by (by rewrite length_fmap).
    f_equal. unfold right. destruct (j <? o)%nat; [done|].
    unfold pixel_at. rewrite Hrow.
    cbn [fmap option_fmap option_map mbind option_bind].
    by rewrite list_lookup_fmap. }
  unfold o in Hs. rewrite !pixel_at_set_channel, Hz, Hg, Hs. done.
Qed.

(** X8: a negative offset that reaches less far back than the frame is wide
    makes both anaglyph branches raise ValueError: the shifted plane has the
    full width, its target only the last [-offset] columns. *)
Theorem anaglyph_negative_offset_raises (mode : string) (frame : image) (offset : Z) :
  mode = "anaglyph_red_cyan" ∨ mode = "anaglyph_green_magenta" →
  rectangular frame → img_empty frame = false →
  - img_width frame < offset < 0 →
  process_3d_frame mode offset frame
  = Raise (ValueError "could not broadcast input array").
Proof.
  intros Hmode Hf Hne [Hlo Hhi].
  destruct (gray_shape frame Hf Hne) as [Hg Hgne].
  set (gray := img_map rgb2gray frame) in *.
  set (w := Z.to_nat (img_width frame)) in *.
  assert (np_setitem (zeros_like 0 gray) (Slice None None) (Slice (Some offset) None)
            (if 0 <? offset then col_slice (Slice None (Some (- offset))) gray else gray)
          = Raise (ValueError "could not broadcast input array")) as Hs.
  { destruct (Z.ltb_spec 0 offset); [lia|].
    rewrite (zeros_like_rect 0 w gray) by done.
    apply (np_setitem_mismatch _ _ _ _ w w); try done.
    - apply rect_replicate.
    - destruct gray; done.
    - right. unfold slice_range, py_bound. cbn.
      destruct (Z.ltb_spec offset 0); [|lia]. lia. }
  unfold process_3d_frame, cvtColor_RGB2GRAY.
  destruct Hmode as [-> | ->]; cbn [String.eqb Ascii.eqb Bool.eqb];
    rewrite Hne; cbn [mbind result_mbind result_bind]; fold gray; by rewrite Hs.
Qed.

Lemma set_channel_shape (c n w : nat) (a : image) (g : list (list Z)) :
  length a = n → length g = n → rect w a → rect w g →
  length (set_channel c a g) = n ∧ rect w (set_channel c a g).
Proof.
  intros Ha Hg Hra Hrg. unfold set_channel. split.
  - rewrite length_zip_with. lia.
  - clear Ha Hg. revert g Hrg.
    induction Hra as [|ra a Hr _ IH]; intros [|rg g] Hrg; try constructor.
    + rewrite length_zip_with, Hr, (Forall_inv Hrg). lia.
    + apply IH. by apply Forall_inv_tail in Hrg.
Qed.

(** X9: whatever the mode, on a rectangular frame and an offset of at least
    10 a frame that [process_3d_frame] returns has the rows and the columns
    of its input. *)
Theorem process_keeps_shape (mode : string) (frame out : image) (offset : Z) :
  rectangular frame → 10 <= offset →
  process_3d_frame mode offset frame = Ok out →
  length out = length frame ∧
  rect (Z.to_nat (img_width frame)) out.
Proof.
  intros Hf Ho.
  assert (∀ m, m = "anaglyph_red_cyan" ∨ m = "anaglyph_green_magenta" →
               process_3d_frame m offset frame = Ok out →
               length out = length frame ∧ rect (Z.to_nat (img_width frame)) out)
    as Hana.
  { intros m Hm Hout.
    destruct (img_empty frame) eqn:Hne.
    { exfalso. unfold process_3d_frame, cvtColor_RGB2GRAY in Hout.
      destruct Hm as [-> | ->]; cbn [String.eqb Ascii.eqb Bool.eqb] in Hout;
        by rewrite Hne in Hout. }
    destruct (anaglyph_outcome frame offset ltac:(lia) Hf Hne) as [Hrc Hgm].
    destruct (gray_shape frame Hf Hne) as [Hg _].
    set (gray := img_map rgb2gray frame) in *.
    set (w := Z.to_nat (img_width frame)) in *.
    assert (length gray = length frame) as Hlg by (unfold gray, img_map; apply length_fmap).
    assert (length (shift_right (Z.to_nat offset) <$> gray) = length frame) as Hls
      by (by rewrite length_fmap).
    assert (rect w (shift_right (Z.to_nat offset) <$> gray)) as Hrs.
    { apply Forall_fmap. eapply Forall_impl; [exact Hg|]. intros r Hr.
      unfold compose, shift_right. cbv beta in Hr |- *.
      rewrite length_take, length_app, length_replicate. lia. }
    assert (length (zeros black (img_height frame) (img_width frame)) = length frame)
      as Hlz by (unfold zeros, img_height; rewrite length_replicate; lia).
    assert (rect w (zeros black (img_height frame) (img_width frame))) as Hrz
      by apply rect_replicate.
    destruct Hm as [-> | ->].
    - rewrite Hrc in Hout. injection Hout as <-.
      destruct (set_channel_shape 0 _ w _ gray Hlz Hlg Hrz Hg) as [H1 H2].
      destruct (set_channel_shape 1 _ w _ _ H1 Hls H2 Hrs) as [H3 H4].
      exact (set_channel_shape 2 _ w _ _ H3 Hls H4 Hrs).
    - rewrite Hgm in Hout. injection Hout as <-.
      destruct (set_channel_shape 1 _ w _ gray Hlz Hlg Hrz Hg) as [H1 H2].
      destruct (set_channel_shape 0 _ w _ _ H1 Hls H2 Hrs) as [H3 H4].
      exact (set_channel_shape 2 _ w _ _ H3 Hls H4 Hrs). }
  assert (∀ A B : image, length A = length frame → length B = length frame →
            rect (Z.to_nat (img_width frame - offset)) A →
            rect (Z.to_nat (img_width frame - offset)) B →
            side_by_side frame offset A B = Ok out →
            length out = length frame ∧ rect (Z.to_nat (img_width frame)) out)
    as Hsbs.
  { intros A B HA HB HrA HrB. rewrite side_by_side_outcome by done.
    set (W := img_width frame). set (H0 := img_height frame).
    set (nh := new_height W H0 offset). set (y := y_offset H0 nh).
    repeat case_match; try done. intros [= <-].
    assert (0 <= W) as HW by apply img_width_nonneg.
    assert (Z.to_nat W = (Z.to_nat (W / 2) + Z.to_nat (W / 2))%nat) as ->.
    { assert (Z.even W = true) as Hev by (by destruct (nh <=? H0), (Z.even W)).
      apply Zeven_bool_iff, Zeven_div2 in Hev. rewrite Zdiv2_div in Hev.
      pose proof (Z.div_pos W 2). lia. }
    destruct (layout_shape (Z.to_nat (W / 2)) (Z.to_nat y) (Z.to_nat (H0 - y - nh))
                (resize_kernel A (Z.to_nat (W / 2)) (Z.to_nat nh))
                (resize_kernel B (Z.to_nat (W / 2)) (Z.to_nat nh)))
      as [Hl Hr]; try apply resize_kernel_cols.
    { by rewrite !resize_kernel_rows. }
    split; [|done]. rewrite Hl, resize_kernel_rows.
    assert (nh <= H0) by (destruct (Z.leb_spec nh H0); [done|done]).
    assert (0 < nh) by (destruct (Z.leb_spec nh 0); [done|lia]).
    assert (0 <= y ∧ y + nh <= H0) as [Hy0 Hy1].
    { unfold y, y_offset. split; [apply Z.div_pos; lia|].
      pose proof (Z.div_le_upper_bound (H0 - nh) 2 (H0 - nh)). lia. }
    unfold H0, img_height in *. lia. }
  destruct (String.eqb_spec mode "side_by_side_cross_eye") as [->|Hn1].
  { rewrite process_cross_eye. apply Hsbs; rewrite ?col_slice_length; try done.
    - apply crop_left_rect; [done|lia].
    - apply crop_right_rect; [done|lia]. }
  destruct (String.eqb_spec mode "side_by_side_parallel") as [->|Hn2].
  { rewrite process_parallel. apply Hsbs; rewrite ?col_slice_length; try done.
    - apply crop_right_rect; [done|lia].
    - apply crop_left_rect; [done|lia]. }
  destruct (String.eqb_spec mode "anaglyph_red_cyan") as [->|Hn3]; [apply Hana; auto|].
  destruct (String.eqb_spec mode "anaglyph_green_magenta") as [->|Hn4]; [apply Hana; auto|].
  unfold process_3d_frame.
  apply String.eqb_neq in Hn1, Hn2, Hn3, Hn4. rewrite Hn1, Hn2, Hn3, Hn4.
  by intros [= <-].
Qed.

End Anaglyph.

Lemma side_by_side_returns_iff_witness :
  is_ok (process_3d_frame (cv:=nearest_cv2) "side_by_side_parallel" 10 (ramp 4 24)) = true ∧
  process_3d_frame (cv:=nearest_cv2) "side_by_side_parallel" 10 (ramp 4 25)
  = Raise (ValueError "could not broadcast input array").
Proof.
  split.
  - apply (side_by_side_returns_iff (cv:=nearest_cv2) "side_by_side_parallel"
             (ramp 4 24) 10).
    + right. reflexivity.
    + apply (rectangular_rect 24), ramp_rect.
    + lia.
    + vm_compute. repeat split; discriminate.
  - apply (side_by_side_returns_iff (cv:=nearest_cv2) "side_by_side_parallel"
             (ramp 4 25) 10).
    + right. reflexivity.
    + apply (rectangular_rect 25), ramp_rect.
    + lia.
    + by vm_compute.
    + by vm_compute.
    + by vm_compute.
    + right. reflexivity.
Defined.

Lemma side_by_side_layout_witness :
  ∃ a b,
    process_3d_frame (cv:=nearest_cv2) "side_by_side_cross_eye" 10 (ramp 4 24)
    = Ok (layout 24 0 1 a b) ∧
    process_3d_frame (cv:=nearest_cv2) "side_by_side_parallel" 10 (ramp 4 24)
    = Ok (layout 24 0 1 b a).
Proof.
  destruct (side_by_side_layout (cv:=nearest_cv2) (ramp 4 24) 10)
    as (Hce & Hpar & _).
  - apply (rectangular_rect 24), ramp_rect.
  - lia.
  - reflexivity.
  - by vm_compute.
  - by vm_compute.
  - eexists _, _. split; [exact Hce|exact Hpar].
Defined.

Lemma anaglyph_pixels_witness :
  ∃ rc gm,
    process_3d_frame (cv:=nearest_cv2) "anaglyph_red_cyan" 3 (ramp 2 8) = Ok rc ∧
    process_3d_frame (cv:=nearest_cv2) "anaglyph_green_magenta" 3 (ramp 2 8) = Ok gm ∧
    pixel_at rc 1 5 = Some (Px (luminance (Px 1 5 7)) (luminance (Px 1 2 7))
                              (luminance (Px 1 2 7))) ∧
    pixel_at gm 1 5 = Some (Px (luminance (Px 1 2 7)) (luminance (Px 1 5 7))
                              (luminance (Px 1 2 7))).
Proof.
  apply (anaglyph_pixels (cv:=nearest_cv2) (ramp 2 8) 3 1 5 (Px 1 5 7)).
  - lia.
  - apply (rectangular_rect 8), ramp_rect.
  - reflexivity.
Defined.

Lemma anaglyph_negative_offset_raises_witness :
  process_3d_frame (cv:=nearest_cv2) "anaglyph_red_cyan" (-3) (ramp 2 8)
  = Raise (ValueError "could not broadcast input array").
Proof.
  apply (anaglyph_negative_offset_raises (cv:=nearest_cv2) "anaglyph_red_cyan"
           (ramp 2 8) (-3)).
  - left. reflexivity.
  - apply (rectangular_rect 8), ramp_rect.
  - reflexivity.
  - by vm_compute.
Defined.

Lemma process_keeps_shape_witness :
  ∃ out,
    process_3d_frame (cv:=nearest_cv2) "side_by_side_cross_eye" 10 (ramp 4 24) = Ok out ∧
    length out = 4%nat ∧ rect 24 out.
Proof.
  destruct (process_3d_frame (cv:=nearest_cv2) "side_by_side_cross_eye" 10 (ramp 4 24))
    as [out|e] eqn:Hout; [|by vm_compute in Hout].
  exists out. split; [reflexivity|].
  apply (process_keeps_shape (cv:=nearest_cv2) "side_by_side_cross_eye" (ramp 4 24) out 10).
  - apply (rectangular_rect 24), ramp_rect.
  - lia.
  - exact Hout.
Defined.

End ReceiverMore.

(** ** Properties of the receive loop and the canvas *)
Module DisplayMore.
Import Receiver Samples Display ReceiverProofs.

Lemma py_int_comp (p q : Q) : (p == q)%Q → py_int p = py_int q.
Proof.
  intros Hpq. apply Z.le_antisymm; apply PublisherMore.py_int_mono;
    rewrite Hpq; apply Qle_refl.
Qed.

Lemma aspect_le (w h cw ch : Z) :
  0 < h → 0 < ch →
  Qle_bool (inject_Z w / inject_Z h) (inject_Z cw / inject_Z ch)
  = (w * ch <=? cw * h).
Proof.
  intros Hh Hch. destruct h as [|h|h]; [lia| |lia]. destruct ch as [|ch|ch]; [lia| |lia].
  unfold Qle_bool, Qdiv, Qmult, Qinv, inject_Z. cbn [Qnum Qden].
  f_equal; lia.
Qed.

Section Canvas.
Context {cv : Cv2}.

(** X10: for a frame with at least one row and one column and a canvas
    larger than 1×1, [fit] returns a size that never exceeds the canvas and
    equals it along one axis: a frame of wider aspect takes the canvas width
    and the height int(canvas_width·height/width), any other the canvas
    height and the width int(canvas_height·width/height). *)
Theorem fit_within_canvas (width height canvas_width canvas_height : Z) :
  0 < width → 0 < height → 1 < canvas_width → 1 < canvas_height →
  ∃ new_width new_height,
    fit width height canvas_width canvas_height = Ok (new_width, new_height) ∧
    (canvas_width * height < width * canvas_height →
     new_width = canvas_width ∧
     new_height = Z.quot (canvas_width * height) width) ∧
    (width * canvas_height <= canvas_width * height →
     new_height = canvas_height ∧
     new_width = Z.quot (canvas_height * width) height) ∧
    0 <= new_width <= canvas_width ∧ 0 <= new_height <= canvas_height ∧
    (new_width = canvas_width ∨ new_height = canvas_height).
Proof.
  intros Hw Hh Hcw Hch. unfold fit, py_int_truediv.
  destruct (Z.eqb_spec height 0); [lia|].
  destruct (Z.eqb_spec canvas_height 0); [lia|].
  cbn [mbind result_mbind result_bind].
  rewrite aspect_le by lia.
  assert (0 < inject_Z width)%Q as Hw' by (change 0%Q with (inject_Z 0); by rewrite <- Zlt_Qlt).
  assert (0 < inject_Z height)%Q as Hh' by (change 0%Q with (inject_Z 0); by rewrite <- Zlt_Qlt).
  destruct (Z.leb_spec (width * canvas_height) (canvas_width * height)) as [Htall|Hwide];
    cbn [negb].
  - assert (py_int (inject_Z canvas_height * (inject_Z width / inject_Z height))
            = Z.quot (canvas_height * width) height) as ->.
    { rewrite <- py_int_inject_div by lia. apply py_int_comp.
      rewrite inject_Z_mult. field. by apply Qnot_eq_sym, Qlt_not_eq. }
    do 2 eexists. split; [done|].
    assert (0 <= Z.quot (canvas_height * width) height <= canvas_width).
    { split; [apply Z.quot_pos; lia|]. apply Z.quot_le_upper_bound; lia. }
    repeat split; lia.
  - unfold py_truediv.
    assert (Qeq_bool (inject_Z width / inject_Z height) 0 = false) as ->.
    { apply not_true_is_false. intros Hq. apply Qeq_bool_iff in Hq.
      assert (0 < inject_Z width / inject_Z height)%Q as Hpos
        by (by apply Qlt_shift_div_l; rewrite ?Qmult_0_l).
      rewrite Hq in Hpos. by apply Qlt_irrefl in Hpos. }
    cbn [fmap result_fmap result_map result_bind mbind result_mbind].
    assert (py_int (inject_Z canvas_width / (inject_Z width / inject_Z height))
            = Z.quot (canvas_width * height) width) as ->.
    { rewrite <- py_int_inject_div by lia. apply py_int_comp.
      rewrite inject_Z_mult. field. split; by apply Qnot_eq_sym, Qlt_not_eq. }
    do 2 eexists. split; [done|].
    assert (0 <= Z.quot (canvas_width * height) width <= canvas_height).
    { split; [apply Z.quot_pos; lia|]. apply Z.quot_le_upper_bound; lia. }
    repeat split; lia.
Qed.

(** X11: [_update_video_display] leaves the canvas as it was when the
    widget is not laid out yet (a side of at most 1) and when the fitted
    size has a side of 0; otherwise it shows the frame resized to the fitted
    size, with a corner that centres it and keeps it inside the canvas. *)
Theorem update_video_display_inside (frame : image)
    (canvas_width canvas_height : Z) (shown : option drawn) :
  (canvas_width <= 1 ∨ canvas_height <= 1 →
   update_video_display frame canvas_width canvas_height shown = shown) ∧
  (1 < canvas_width → 1 < canvas_height → img_empty frame = false →
   ∃ nw nh,
     fit (img_width frame) (img_height frame) canvas_width canvas_height = Ok (nw, nh) ∧
     (nw <= 0 ∨ nh <= 0 →
      update_video_display frame canvas_width canvas_height shown = shown) ∧
     (1 <= nw → 1 <= nh →
      ∃ d, update_video_display frame canvas_width canvas_height shown = Some d ∧
           length (dr_image d) = Z.to_nat nh ∧ rect (Z.to_nat nw) (dr_image d) ∧
           0 <= dr_x d ∧ dr_x d + nw <= canvas_width ∧
           0 <= dr_y d ∧ dr_y d + nh <= canvas_height ∧
           canvas_width - nw - 1 <= 2 * dr_x d <= canvas_width - nw ∧
           canvas_height - nh - 1 <= 2 * dr_y d <= canvas_height - nh)).
Proof.
  split.
  - intros Hsmall. unfold update_video_display.
    destruct (Z.ltb_spec 1 canvas_width); destruct (Z.ltb_spec 1 canvas_height);
      try done. lia.
  - intros Hcw Hch Hne.
    assert (0 < img_width frame ∧ 0 < img_height frame) as [Hw Hh].
    { unfold img_empty in Hne. apply orb_false_elim in Hne as [H1 H2].
      apply Z.eqb_neq in H1, H2. pose proof (img_width_nonneg frame).
      unfold img_height in *. lia. }
    destruct (fit_within_canvas _ _ _ _ Hw Hh Hcw Hch)
      as (nw & nh & Hfit & _ & _ & Hnw & Hnh & _).
    exists nw, nh. split; [done|].
    unfold update_video_display.
    destruct (Z.ltb_spec 1 canvas_width); [|lia].
    destruct (Z.ltb_spec 1 canvas_height); [|lia]. cbn [andb].
    rewrite Hfit. cbn [mbind result_mbind result_bind]. unfold cv2_resize. rewrite Hne.
    split.
    + intros Hzero.
      destruct (Z.leb_spec nw 0); [done|]. destruct (Z.leb_spec nh 0); [done|]. lia.
    + intros H1 H2.
      destruct (Z.leb_spec nw 0); [lia|]. destruct (Z.leb_spec nh 0); [lia|].
      cbn. eexists. split; [done|]. cbn.
      pose proof (Z.div_mod (canvas_width - nw) 2 ltac:(lia)).
      pose proof (Z.mod_pos_bound (canvas_width - nw) 2 ltac:(lia)).
      pose proof (Z.div_mod (canvas_height - nh) 2 ltac:(lia)).
      pose proof (Z.mod_pos_bound (canvas_height - nh) 2 ltac:(lia)).
      split; [apply resize_kernel_rows|]. split; [apply resize_kernel_cols|]. lia.
Qed.

(** X12: the receive loop hands to the canvas the transformed frames of the
    longest run of incoming frames, from the first on, whose transform
    returns; the first frame whose transform raises ends the loop, and no
    later frame is shown. *)
Theorem handle_video_track_stops_at_first_failure
    (incoming : list (image * string * Z)) :
  ∃ served rest,
    incoming = served ++ rest ∧
    Forall2 (λ '(img, mode, offset) out, process_3d_frame mode offset img = Ok out)
      served (handle_video_track incoming) ∧
    match rest with
    | [] => True
    | (img, mode, offset) :: _ => is_ok (process_3d_frame mode offset img) = false
    end.
Proof.
  induction incoming as [|[[img mode] offset] incoming (served & rest & Heq & Hall & Hrest)].
  - exists [], []. repeat split. constructor.
  - cbn [handle_video_track].
    destruct (process_3d_frame mode offset img) as [out|e] eqn:Hout.
    + exists ((img, mode, offset) :: served), rest. split; [by rewrite Heq|].
      split; [by constructor|done].
    + exists [], ((img, mode, offset) :: incoming). split; [done|].
      split; [constructor|]. by rewrite Hout.
Qed.

End Canvas.

Lemma fit_within_canvas_witness :
  fit 640 480 800 600 = Ok (800, 600) ∧ fit 640 480 1000 600 = Ok (800, 600) ∧
  fit 640 480 800 700 = Ok (800, 600).
Proof.
  destruct (fit_within_canvas 640 480 800 600) as (nw & nh & -> & _ & H1 & _);
    [lia..|].
  destruct (fit_within_canvas 640 480 1000 600) as (nw2 & nh2 & -> & _ & H2 & _);
    [lia..|].
  destruct (fit_within_canvas 640 480 800 700) as (nw3 & nh3 & -> & H3 & _);
    [lia..|].
  destruct H1 as [-> ->]; [lia|]. destruct H2 as [-> ->]; [lia|].
  destruct H3 as [-> ->]; [lia|]. repeat split.
Defined.

Lemma update_video_display_inside_witness :
  ∃ d, update_video_display (cv:=nearest_cv2) (ramp 4 8) 10 10 None = Some d ∧
       dr_x d = 0 ∧ dr_y d = 2 ∧ length (dr_image d) = 5%nat.
Proof.
  destruct (update_video_display_inside (cv:=nearest_cv2) (ramp 4 8) 10 10 None)
    as [_ Hdraw].
  destruct Hdraw as (nw & nh & Hfit & _ & Hd); [lia|lia|reflexivity|].
  injection Hfit as <- <-.
  destruct Hd as (d & Hd & Hlen & _); [by vm_compute|by vm_compute|].
  exists d. split; [exact Hd|]. injection Hd as <-. repeat split.
Defined.

End DisplayMore.

(** ** Further properties of the signaling handlers *)
Module SignalingMore.
Import Publisher Signaling Answering Samples.

Section Handlers.
Context {PC : Type} {engine : Engine PC}.
Variable open_capture : string → VideoCapture.

(** X13: [_create_new_connection] depends on the publisher only through its
    video path.  Whatever session it held, and whether or not closing it
    raised, the publisher ends with the fresh connection carrying a newly
    built track whose pacing has not started; when the track cannot be
    built the constructor's exception is passed on and the publisher is left
    with a fresh connection and no track. *)
Theorem create_new_connection_replaces_session (p : WebRTCPublisher) :
  match init (wp_video_path p) (open_capture (wp_video_path p)) with
  | Ok track =>
      create_new_connection open_capture p
      = (Ok (pc_addTransceiver pc_new track),
         with_session p (Some (pc_addTransceiver pc_new track)) (Some track)) ∧
      start_time track = None
  | Raise e =>
      create_new_connection open_capture p
      = (Raise e, with_session p (Some pc_new) None)
  end.
Proof.
  unfold create_new_connection, reset_connection.
  destruct p as [path [c|] [t|]]; cbn;
    repeat match goal with |- context [pc_close ?c] => destruct (pc_close c) end;
    cbn;
    destruct (init path (open_capture path)) as [track|err] eqn:Hi; try done;
    (split; [done|]);
    unfold init in Hi; destruct (cap_opened _); try done;
    cbn in Hi; destruct (py_truediv _ _); try done; by injection Hi as <-.
Qed.

(** X14: [offer_handler] answers every request with 200 or 500.  A 200
    carries the JSON object of an [sdp] and a [type] and leaves the
    publisher with a connection and a track; a 500 is plain text. *)
Theorem offer_handler_200_or_500 (request : option (gmap string string))
    (p : WebRTCPublisher) :
  let r := (offer_handler open_capture request p).1 in
  let p' := (offer_handler open_capture request p).2 in
  (status r = 200 ∧ content_type r = "application/json" ∧
   (∃ sdp ty, body r = JsonDumps (<["sdp" := sdp]> (<["type" := ty]> ∅))) ∧
   is_Some (pc p') ∧ is_Some (video_track p')) ∨
  (status r = 500 ∧ content_type r = "text/plain" ∧ ∃ msg, body r = Text msg).
Proof.
  pose proof (create_new_connection_replaces_session p) as Hc.
  unfold offer_handler, offer_try.
  destruct request as [params|]; [|right; cbn; eauto].
  destruct (params !! "sdp"); [|right; cbn; eauto].
  destruct (params !! "type"); [|right; cbn; eauto].
  destruct (description _ _); [|right; cbn; eauto].
  destruct (init _ _) as [track|e].
  - destruct Hc as [-> _].
    destruct (pc_setRemoteDescription _ _) as [c1|]; [|right; cbn; eauto].
    cbn [mbind result_mbind result_bind].
    destruct (pc_createAnswer c1) as [answer|]; [|right; cbn; eauto].
    cbn [mbind result_mbind result_bind].
    destruct (pc_setLocalDescription c1 answer) as [c2|]; [|right; cbn; eauto].
    cbn [mbind result_mbind result_bind].
    destruct (pc_localDescription c2) as [ld|]; [|right; cbn; eauto].
    left. cbn. repeat split; eauto.
  - rewrite Hc. right. cbn. eauto.
Qed.

(** X15: a request that cannot be parsed, lacks [sdp] or [type], or whose
    description the engine rejects is answered with 500 and leaves the
    publisher exactly as it was; the session is replaced only after the
    description was built. *)
Theorem offer_rejected_before_session (request : option (gmap string string))
    (p : WebRTCPublisher) :
  (request = None ∨
   ∃ params, request = Some params ∧
     (params !! "sdp" = None ∨ params !! "type" = None ∨
      ∃ sdp ty e, params !! "sdp" = Some sdp ∧ params !! "type" = Some ty ∧
                  description sdp ty = Raise e)) →
  status (offer_handler open_capture request p).1 = 500 ∧
  (offer_handler open_capture request p).2 = p.
Proof.
  unfold offer_handler, offer_try.
  intros [-> | (params & -> & [Hs | [Ht | (sdp & ty & e & Hs & Ht & Hd)]])].
  - done.
  - by rewrite Hs.
  - rewrite Ht. by destruct (params !! "sdp").
  - by rewrite Hs, Ht, Hd.
Qed.

(** X16: once the description of an offer was built the previous session is
    gone, whether the negotiation succeeds or not: the publisher ends with
    a connection and with the track [_create_new_connection] built, or with
    no track when that could not be built. *)
Theorem offer_discards_previous_session (params : gmap string string)
    (sdp ty : string) (offer : RTCSessionDescription) (p : WebRTCPublisher) :
  params !! "sdp" = Some sdp → params !! "type" = Some ty →
  description sdp ty = Ok offer →
  let fresh_p := (create_new_connection open_capture p).2 in
  let p' := (offer_handler open_capture (Some params) p).2 in
  is_Some (pc p') ∧
  video_track p' = video_track fresh_p ∧
  video_track p' =
    match init (wp_video_path p) (open_capture (wp_video_path p)) with
    | Ok track => Some track
    | Raise _ => None
    end ∧
  wp_video_path p' = wp_video_path p.
Proof.
  intros Hs Ht Hd.
  pose proof (create_new_connection_replaces_session p) as Hc.
  unfold offer_handler, offer_try. rewrite Hs, Ht, Hd.
  destruct (init _ _) as [track|e].
  - destruct Hc as [-> _]. cbn [snd].
    destruct (pc_setRemoteDescription _ _) as [c1|]; [|by cbn; eauto].
    cbn [mbind result_mbind result_bind].
    destruct (pc_createAnswer c1) as [answer|]; [|by cbn; eauto].
    cbn [mbind result_mbind result_bind].
    destruct (pc_setLocalDescription c1 answer) as [c2|]; [|by cbn; eauto].
    cbn [mbind result_mbind result_bind].
    destruct (pc_localDescription c2) as [ld|]; cbn; eauto.
  - rewrite Hc. cbn. eauto.
Qed.

(** X17: [answer_handler].  An unparsable body gives 500.  Without a
    connection every parsed body is answered 200 "OK", also one that lacks
    [sdp], and nothing changes.  With a connection a body lacking [sdp]
    gives 500 with the text of the KeyError; otherwise the answer is applied
    to the connection and answered 200 "OK", or, when the engine rejects it,
    500 with the publisher unchanged.  The track is never touched. *)
Theorem answer_handler_cases (request : option (gmap string string))
    (p : WebRTCPublisher) :
  let r := (answer_handler request p).1 in
  let p' := (answer_handler request p).2 in
  video_track p' = video_track p ∧
  (request = None → status r = 500 ∧ p' = p) ∧
  (∀ params, request = Some params → pc p = None →
     status r = 200 ∧ body r = Text "OK" ∧ p' = p) ∧
  (∀ params c, request = Some params → pc p = Some c → params !! "sdp" = None →
     status r = 500 ∧ body r = Text "'sdp'" ∧ p' = p) ∧
  (∀ params c answer_sdp, request = Some params → pc p = Some c →
     params !! "sdp" = Some answer_sdp →
     match description answer_sdp "answer" ≫= pc_setRemoteDescription c with
     | Ok c' => status r = 200 ∧ body r = Text "OK" ∧
                p' = with_session p (Some c') (video_track p)
     | Raise e => status r = 500 ∧ body r = Text (exn_msg e) ∧ p' = p
     end).
Proof.
  unfold answer_handler, handle_answer.
  destruct request as [params|]; cbn;
    [|repeat split; intros; simplify_eq; done].
  destruct p as [path [c|] t]; cbn;
    [|repeat split; intros; simplify_eq; done].
  destruct (params !! "sdp") as [s|] eqn:Hs; cbn;
    [|repeat split; intros; simplify_eq; done].
  destruct (description s "answer") as [d|e] eqn:Hd; cbn.
  - destruct (pc_setRemoteDescription c d) as [c'|e] eqn:Hr; cbn;
      (split; [done|]); repeat split; intros; simplify_eq; try done;
      rewrite Hd; cbn; by rewrite Hr.
  - (split; [done|]); repeat split; intros; simplify_eq; try done.
    by rewrite Hd.
Qed.

End Handlers.

Lemma offer_rejected_before_session_witness :
  status (offer_handler sample_open (Some offer_without_sdp) idle_publisher).1 = 500 ∧
  (offer_handler sample_open (Some offer_without_sdp) idle_publisher).2 = idle_publisher.
Proof.
  apply (offer_rejected_before_session sample_open (Some offer_without_sdp) idle_publisher).
  right. exists offer_without_sdp. split; [reflexivity|]. left. reflexivity.
Defined.

Lemma offer_discards_previous_session_witness :
  let p' := (offer_handler sample_open (Some offer_complete) idle_publisher).2 in
  is_Some (pc p') ∧
  video_track p' = video_track (create_new_connection sample_open idle_publisher).2.
Proof.
  destruct (offer_discards_previous_session sample_open offer_complete
              "v=0 offer" "offer" {| sd_sdp := "v=0 offer"; sd_type := "offer" |}
              idle_publisher) as (Hpc & Htrack & _); [reflexivity..|].
  split; [exact Hpc|exact Htrack].
Defined.

Lemma answer_handler_cases_witness :
  status (answer_handler (Some offer_without_sdp) idle_publisher).1 = 200 ∧
  (answer_handler (Some offer_without_sdp) idle_publisher).2 = idle_publisher ∧
  body (answer_handler (Some offer_without_sdp)
          (offer_handler sample_open (Some offer_complete) idle_publisher).2).1
  = Text "'sdp'".
Proof.
  destruct (answer_handler_cases (Some offer_without_sdp) idle_publisher)
    as (_ & _ & Hnone & _).
  destruct (Hnone offer_without_sdp eq_refl eq_refl) as (H200 & _ & Hp).
  split; [exact H200|]. split; [exact Hp|].
  destruct (answer_handler_cases (Some offer_without_sdp)
              (offer_handler sample_open (Some offer_complete) idle_publisher).2)
    as (_ & _ & _ & Hkey & _).
  eapply Hkey; reflexivity.
Defined.

End SignalingMore.
